(** * Agents on Docker: a shallow embedding of the four agent scripts

    The repository holds four near-duplicate Python scripts:

    - [src/agent-docker-v7/agent.py]                       (module [V7])
    - [src/agent-docker-v7/simple_agent.py]                (module [Simple])
    - [src/examples/basic-agent/agent-docker-v1/agent.py]  (module [Basic])
    - [src/examples/agent-with-mcp/agent-docker-v7/agent.py] (module [Mcp])

    Python strings are sequences of Unicode code points, the process
    environment is a finite map, the file system is a finite map from
    resolved paths to nodes, and the tools run in a small state-and-exception
    monad over that file system.  The external collaborators (gateway client,
    agent framework) are described by the outcome of each call the scripts
    make to them. *)

From Stdlib Require Import NArith QArith Ascii String DecimalString.
From stdpp Require Import gmap strings list fin_maps.

Local Open Scope N_scope.

(** ** Python strings *)

(** A [str] is a sequence of code points. *)
Abbreviation pystr := (list N).

(** String literals of the scripts are UTF-8 text in the source file; [lit]
    decodes the bytes of a Rocq literal into the code points Python sees. *)
Fixpoint utf8_decode (pending : nat) (acc : N) (bs : list N) : pystr :=
  match bs with
  | [] => []
  | b :: bs' =>
      match pending with
      | O =>
          if b <? 128 then b :: utf8_decode O 0 bs'
          else if b <? 224 then utf8_decode 1 (b - 192) bs'
          else if b <? 240 then utf8_decode 2 (b - 224) bs'
          else utf8_decode 3 (b - 240) bs'
      | S O => (acc * 64 + (b - 128)) :: utf8_decode O 0 bs'
      | S k => utf8_decode k (acc * 64 + (b - 128)) bs'
      end
  end.

Definition lit (s : string) : pystr :=
  utf8_decode O 0 (map N_of_ascii (list_ascii_of_string s)).

(** [str.isspace] per code point (CPython's [Py_UNICODE_ISSPACE]). *)
Definition isspace (c : N) : bool :=
  ((9 <=? c) && (c <=? 13)) || ((28 <=? c) && (c <=? 32))
  || (c =? 133) || (c =? 160) || (c =? 5760)
  || ((8192 <=? c) && (c <=? 8202))
  || (c =? 8232) || (c =? 8233) || (c =? 8239) || (c =? 8287)
  || (c =? 12288).

(** [str.isalnum] on the ASCII range: digits and the two letter ranges. *)
Definition ascii_isalnum (c : N) : bool :=
  ((48 <=? c) && (c <=? 57)) || ((65 <=? c) && (c <=? 90))
  || ((97 <=? c) && (c <=? 122)).

(** [s.lstrip()], [s.rstrip()] and [s.strip()] with no argument. *)
Fixpoint lstrip (s : pystr) : pystr :=
  match s with
  | [] => []
  | c :: s' => if isspace c then lstrip s' else s
  end.

Definition rstrip (s : pystr) : pystr := rev (lstrip (rev s)).

Definition strip (s : pystr) : pystr := rstrip (lstrip s).

(** [x in s] for strings: [x] occurs as a contiguous run of [s]. *)
Fixpoint startswith (s x : pystr) : bool :=
  match x, s with
  | [], _ => true
  | a :: x', b :: s' => (a =? b) && startswith s' x'
  | _ :: _, [] => false
  end.

Fixpoint contains (s x : pystr) : bool :=
  startswith s x || match s with [] => false | _ :: s' => contains s' x end.

(** [sep.join(items)]. *)
Fixpoint join (sep : pystr) (items : list pystr) : pystr :=
  match items with
  | [] => []
  | [x] => x
  | x :: rest => x ++ sep ++ join sep rest
  end.

(** [s.split("/")]: the pieces between slashes, empty pieces included. *)
Fixpoint split_slash (s : pystr) : list pystr :=
  match s with
  | [] => [[]]
  | c :: s' =>
      if c =? 47 then [] :: split_slash s'
      else match split_slash s' with
           | [] => [[c]]
           | x :: xs => (c :: x) :: xs
           end
  end.

(** ** Process environment *)

Abbreviation environ := (gmap string pystr).

(** [os.getenv(name)] and [os.getenv(name, default)]. *)
Definition getenv (env : environ) (name : string) : option pystr := env !! name.

Definition getenv_default (env : environ) (name : string) (dflt : pystr) : pystr :=
  default dflt (env !! name).

(** ** Model configuration *)

Record sampling := { temperature : Q; max_tokens : N }.

Record client := { api_key : pystr; base_url : option pystr }.

(** The arguments handed to the SDK's [OpenAIModel] constructor; an omitted
    keyword ([base_url], [params]) is [None]. *)
Record OpenAIModel := {
  client_args : client;
  model_id : pystr;
  params : option sampling
}.

(** Python truthiness of a [str]: only [""] is falsy. *)
Definition truthy (k : pystr) : bool :=
  match k with [] => false | _ :: _ => true end.

(** ** Exceptions

    Every exception of the model derives from Python's [Exception]; signals
    that derive from [BaseException] only (keyboard interrupt, interpreter
    exit) are not modelled. [exn_str] is [str(e)]. *)

Inductive exn_class :=
  | FileNotFoundError | FileExistsError | NotADirectoryError
  | IsADirectoryError | PermissionError | OSError
  | ValueError | ConnectionError | RuntimeError.

Record exn := { exn_cls : exn_class; exn_str : pystr }.

(** ** pathlib: pure paths

    A POSIX pure path is a root (no slash, one, or exactly two) and its
    parts; empty and ["."] segments vanish when a string is parsed, [".."]
    segments are kept. *)

Record PurePath := { root : N; parts : list pystr }.

(** [posixpath.splitroot]: no leading slash, exactly two, or any other
    number of them. *)
Definition splitroot (s : pystr) : N * pystr :=
  if negb (bool_decide (take 1 s = [47])) then (0, s)
  else if negb (bool_decide (take 1 (drop 1 s) = [47]))
          || bool_decide (take 1 (drop 2 s) = [47])
       then (1, drop 1 s)
       else (2, drop 2 s).

Definition real_segment (c : pystr) : bool :=
  negb (bool_decide (c = [])) && negb (bool_decide (c = [46])).

Definition Path (s : pystr) : PurePath :=
  let '(r, rest) := splitroot s in
  {| root := r; parts := List.filter real_segment (split_slash rest) |}.

(** [a / seg]: an anchored right operand replaces the left one. *)
Definition joinpath (a : PurePath) (seg : pystr) : PurePath :=
  let b := Path seg in
  if root b =? 0 then {| root := root a; parts := parts a ++ parts b |} else b.

(** [str(p)] and [p.name]. *)
Definition path_str (p : PurePath) : pystr :=
  match root p, parts p with
  | 0, [] => [46]
  | r, ps => replicate (N.to_nat r) 47 ++ join [47] ps
  end.

Definition path_name (p : PurePath) : pystr := List.last (parts p) [].

(** ** The file system

    A resolved location is the list of directory names from the root down to
    the entry. The world holds the entries, the working directory and a
    schedule of injected faults: each system call takes the next entry of the
    schedule and fails with it when it is [Some e] (disk full, read-only
    mount, permissions, ...). Symbolic links are not modelled. *)

Abbreviation location := (list pystr).

Inductive node := Dir | File (data : pystr).

Record world := {
  nodes : gmap location node;
  cwd : location;
  faults : list (option exn)
}.

Definition set_nodes (w : world) (n : gmap location node) : world :=
  {| nodes := n; cwd := cwd w; faults := faults w |}.

(** The files of a world with their contents (directories left out). *)
Definition file_data (n : node) : option pystr :=
  match n with File d => Some d | Dir => None end.

Definition files (w : world) : gmap location pystr := omap file_data (nodes w).

Definition is_dir (n : gmap location node) (l : location) : bool :=
  match l with
  | [] => true
  | _ => match n !! l with Some Dir => true | _ => false end
  end.

Definition dotdot : pystr := [46; 46].

Definition parent (l : location) : location := removelast l.

Definition os_error (c : exn_class) (errno : pystr) (p : PurePath) : exn :=
  {| exn_cls := c; exn_str := errno ++ lit ": '" ++ path_str p ++ lit "'" |}.

(** Walk the parts of [p] from [cur]: every directory stepped through must
    exist; the last entry itself need not. *)
Fixpoint walk (n : gmap location node) (p : PurePath) (cur : location)
    (comps : list pystr) : exn + location :=
  match comps with
  | [] => inr cur
  | c :: rest =>
      if is_dir n cur then
        walk n p (if bool_decide (c = dotdot) then parent cur else cur ++ [c]) rest
      else
        match n !! cur with
        | Some (File _) =>
            inl (os_error NotADirectoryError (lit "[Errno 20] Not a directory") p)
        | _ =>
            inl (os_error FileNotFoundError (lit "[Errno 2] No such file or directory") p)
        end
  end.

Definition resolve (w : world) (p : PurePath) : exn + location :=
  walk (nodes w) p (if root p =? 0 then cwd w else []) (parts p).

(** ** Tool bodies as state-and-exception computations

    A tool of the scripts is embedded as the Python function is written: what
    the function body returns or raises. The SDK's [@tool] decorator, which
    wraps the function before the agent sees it, is not part of the source
    and is not modelled. *)

Definition M (A : Type) : Type := world → (exn + A) * world.

#[global] Instance M_ret : MRet M := λ A (a : A) w, (inr a, w).

#[global] Instance M_bind : MBind M := λ A B (f : A → M B) (m : M A) w,
  match m w with
  | (inl e, w') => (inl e, w')
  | (inr a, w') => f a w'
  end.

(** [try: body / except Exception as e: handler(e)]. *)
Definition try_except {A} (body : M A) (handler : exn → M A) : M A := λ w,
  match body w with
  | (inl e, w') => handler e w'
  | (inr a, w') => (inr a, w')
  end.

(** Entry of a system call: consume the next scheduled fault. *)
Definition syscall : M unit := λ w,
  match faults w with
  | [] => (inr (), w)
  | None :: fs => (inr (), {| nodes := nodes w; cwd := cwd w; faults := fs |})
  | Some e :: fs => (inl e, {| nodes := nodes w; cwd := cwd w; faults := fs |})
  end.

(** [p.mkdir(exist_ok=...)] (parents are not created). *)
Definition mkdir (p : PurePath) (exist_ok : bool) : M unit :=
  syscall;;
  (λ w,
    match resolve w p with
    | inl e => (inl e, w)
    | inr l =>
        if is_dir (nodes w) l then
          if exist_ok then (inr (), w)
          else (inl (os_error FileExistsError (lit "[Errno 17] File exists") p), w)
        else
          match nodes w !! l with
          | Some _ => (inl (os_error FileExistsError (lit "[Errno 17] File exists") p), w)
          | None => (inr (), set_nodes w (<[l := Dir]> (nodes w)))
          end
    end) : M unit.

(** [open(p, "w")]: the file is created or truncated; the handle is the
    location of the file. *)
Definition open_w (p : PurePath) : M location :=
  syscall;;
  (λ w,
    match resolve w p with
    | inl e => (inl e, w)
    | inr l =>
        if is_dir (nodes w) l then
          (inl (os_error IsADirectoryError (lit "[Errno 21] Is a directory") p), w)
        else (inr l, set_nodes w (<[l := File []]> (nodes w)))
    end) : M location.

(** [f.write(s)]: the text goes to the end of the file. *)
Definition append_data (s : pystr) (n : node) : node :=
  match n with File d => File (d ++ s) | Dir => Dir end.

Definition write (f : location) (s : pystr) : M unit :=
  syscall;;
  (λ w, (inr (), set_nodes w (alter (append_data s) f (nodes w)))) : M unit.

Definition close (f : location) : M unit := syscall.

(** [with open(p, "w") as f: body(f)]: the file is closed however the body
    ends; an error of the close itself replaces the body's outcome. *)
Definition with_open_w {A} (p : PurePath) (body : location → M A) : M A := λ w,
  match open_w p w with
  | (inl e, w1) => (inl e, w1)
  | (inr f, w1) =>
      let '(r, w2) := body f w1 in
      match close f w2 with
      | (inl e', w3) => (inl e', w3)
      | (inr _, w3) => (r, w3)
      end
  end.

(** ** External collaborators

    The SDK's model client, the gateway client and the agent are black
    boxes. A run of a script makes each of these calls at most once; the
    record gives the outcome of each call, should it be reached. *)

Inductive tool :=
  | save_definition_tool | simple_search_tool | save_file_tool
  | current_time_tool
  | mcp_tool (descriptor : pystr).

Record Agent := {
  agent_model : OpenAIModel;
  agent_tools : list tool;
  system_prompt : pystr
}.

Record externals := {
  model_init : option exn;           (* OpenAIModel(...) *)
  client_init : option exn;          (* MCPClient(...) *)
  gateway_enter : option exn;        (* mcp_client.__enter__() *)
  list_tools_sync : exn + list tool; (* mcp_client.list_tools_sync() *)
  agent_init : option exn;           (* Agent(...) *)
  agent_call : exn + pystr;          (* agent(QUESTION) *)
  gateway_exit : option exn          (* mcp_client.__exit__(...) *)
}.

(** What a run does, in order. [Acquire] is a successful [__enter__] of the
    gateway client, [Release] its [__exit__]. *)
Inductive event :=
  | Print (line : pystr)
  | ModelInit (args : OpenAIModel)
  | ClientInit (url : pystr)
  | Acquire
  | ListTools
  | AgentInit (a : Agent)
  | AgentCall (question : pystr)
  | Release.

(** A script run: the events so far and how it ended. *)
Definition P (A : Type) : Type := list event * (exn + A).

#[global] Instance P_ret : MRet P := λ A (a : A), ([], inr a).

#[global] Instance P_bind : MBind P := λ A B (f : A → P B) (m : P A),
  match m with
  | (tr, inl e) => (tr, inl e)
  | (tr, inr a) => let '(tr', r) := f a in (tr ++ tr', r)
  end.

Definition print (line : pystr) : P unit := ([Print line], inr ()).

Definition failing (o : option exn) : exn + unit :=
  match o with Some e => inl e | None => inr () end.

Definition call {A} (ev : event) (outcome : exn + A) : P A := ([ev], outcome).

(** [try: body / except Exception as e: handler(e)] at script level. *)
Definition try_except_P {A} (body : P A) (handler : exn → P A) : P A :=
  match body with
  | (tr, inl e) => let '(tr', r) := handler e in (tr ++ tr', r)
  | (tr, inr a) => (tr, inr a)
  end.

Definition reraise {A} (e : exn) : P A := ([], inl e).

(** [with mcp_client: body]: when [__enter__] fails the body and [__exit__]
    are skipped; otherwise [__exit__] runs however the body ends, and an
    error of [__exit__] itself replaces the body's outcome. *)
Definition with_client {A} (ext : externals) (body : P A) : P A :=
  match gateway_enter ext with
  | Some e => ([], inl e)
  | None =>
      let '(tr, r) := body in
      match gateway_exit ext with
      | Some e' => (Acquire :: tr ++ [Release], inl e')
      | None => (Acquire :: tr ++ [Release], r)
      end
  end.

(** The interpreter's exit status: zero when [main] returns, one when an
    exception reaches the top level. *)
Definition exit_status {A} (run : P A) : N :=
  match run.2 with inr _ => 0 | inl _ => 1 end.

Definition trace {A} (run : P A) : list event := run.1.

(** [str(n)] for a list length. *)
Definition str_nat (n : nat) : pystr :=
  lit (DecimalString.NilEmpty.string_of_uint (Nat.to_uint n)).

Definition dq : pystr := [34].
Definition nl : pystr := [10].

(** *** src/agent-docker-v7/agent.py *)
Module V7.

Definition MODEL_RUNNER_URL (env : environ) : pystr :=
  getenv_default env "MODEL_RUNNER_URL"
    (lit "http://model-runner.docker.internal/engines/llama.cpp/v1").
Definition MODEL_RUNNER_MODEL (env : environ) : pystr :=
  getenv_default env "MODEL_RUNNER_MODEL" (lit "ai/qwen3").
Definition OPENAI_MODEL_NAME (env : environ) : pystr :=
  getenv_default env "OPENAI_MODEL_NAME" (lit "gpt-4o-mini").
Definition OPENAI_API_KEY (env : environ) : option pystr :=
  getenv env "OPENAI_API_KEY".
Definition MCP_SERVER_URL (env : environ) : pystr :=
  getenv_default env "MCP_SERVER_URL" (lit "http://mcp-gateway:8811/sse").
Definition QUESTION (env : environ) : pystr :=
  getenv_default env "QUESTION" (lit "Define Zorgon").

Definition out_dir : PurePath := Path (lit "/app/definitions").

Definition file_path (word : pystr) : PurePath :=
  joinpath out_dir (word ++ lit ".txt").

Definition save_definition (word definition : pystr) : M pystr :=
  mkdir out_dir true;;
  with_open_w (file_path word) (λ f,
    write f (strip definition ++ nl));;
  mret (lit "The definition for '" ++ word
        ++ lit "' has been found and saved. Mission Completed! Stop").

(** The arguments [get_model] passes to [OpenAIModel]. *)
Definition get_model (env : environ) : OpenAIModel :=
  let local_model :=
    {| client_args := {| api_key := lit "sk-insecure";
                         base_url := Some (MODEL_RUNNER_URL env) |};
       model_id := MODEL_RUNNER_MODEL env;
       params := Some {| temperature := 0 # 1; max_tokens := 512 |} |} in
  match OPENAI_API_KEY env with
  | Some key =>
      if truthy key && negb (bool_decide (key = lit "sk-insecure")) then
        {| client_args := {| api_key := key; base_url := None |};
           model_id := OPENAI_MODEL_NAME env;
           params := None |}
      else local_model
  | None => local_model
  end.

Definition prompt (env : environ) : pystr :=
  join nl [
    lit "You are a helpful assistant. Your task is to define a term by searching for it, saving the definition, and then confirming completion.";
    [];
    lit "## Example:";
    [];
    lit "Question: " ++ dq ++ lit "What is photosynthesis?" ++ dq;
    [];
    lit "Thought: The user is asking for the definition of " ++ dq
      ++ lit "photosynthesis" ++ dq
      ++ lit ". I will use the search tool one time to find it.";
    lit "Tool Call: `search(query=" ++ dq ++ lit "photosynthesis" ++ dq ++ lit ")`";
    lit "Thought: I have the definition from the search result. I will now save it using the save_definition tool.";
    lit "Tool Call: `save_definition(" ++ dq ++ lit "Photosynthesis" ++ dq
      ++ lit ", " ++ dq
      ++ lit "The process by which green plants use sunlight to synthesize foods from carbon dioxide and water."
      ++ dq ++ lit ")`";
    lit "Thought: The definition has been saved successfully. I will now inform the user that the task is complete.";
    lit "STOP! EXIT!";
    lit "---";
    [];
    lit "## Your Turn:";
    [];
    lit "Question: " ++ QUESTION env ].

Definition main (env : environ) (ext : externals) : P unit :=
  let model := get_model env in
  call (ModelInit model) (failing (model_init ext));;
  call (ClientInit (MCP_SERVER_URL env)) (failing (client_init ext));;
  with_client ext (
    mcp_tools ← call ListTools (list_tools_sync ext);
    let agent := {| agent_model := model;
                    agent_tools := mcp_tools ++ [save_definition_tool];
                    system_prompt := prompt env |} in
    call (AgentInit agent) (failing (agent_init ext));;
    print (lit "Processing: " ++ QUESTION env);;
    response ← call (AgentCall (QUESTION env)) (agent_call ext);
    print (lit "Response: " ++ response)).

End V7.

(** *** src/agent-docker-v7/simple_agent.py *)
Module Simple.

Definition MODEL_RUNNER_URL (env : environ) : pystr :=
  getenv_default env "MODEL_RUNNER_URL"
    (lit "http://model-runner.docker.internal/engines/llama.cpp/v1").
Definition MODEL_RUNNER_MODEL (env : environ) : pystr :=
  getenv_default env "MODEL_RUNNER_MODEL" (lit "ai/qwen3").
Definition QUESTION (env : environ) : pystr :=
  getenv_default env "QUESTION" (lit "What is 25 * 4?").

Definition simple_search (query : pystr) : pystr :=
  lit "Here is information about " ++ query
  ++ lit ": This is a mock search result for demonstration.".

Definition out_dir : PurePath := Path (lit "/app/definitions").

Definition file_path (filename : pystr) : PurePath := joinpath out_dir filename.

Definition save_file (filename content : pystr) : M pystr :=
  mkdir out_dir true;;
  with_open_w (file_path filename) (λ f, write f content);;
  mret (lit "Saved to " ++ path_str (file_path filename)).

Definition main (env : environ) (ext : externals) : P unit :=
  let model :=
    {| client_args := {| api_key := lit "sk-insecure";
                         base_url := Some (MODEL_RUNNER_URL env) |};
       model_id := MODEL_RUNNER_MODEL env;
       params := Some {| temperature := 1 # 10; max_tokens := 200 |} |} in
  call (ModelInit model) (failing (model_init ext));;
  let agent :=
    {| agent_model := model;
       agent_tools := [simple_search_tool; save_file_tool];
       system_prompt :=
         lit "You are a helpful assistant. Use tools when needed and give short, direct answers." |} in
  call (AgentInit agent) (failing (agent_init ext));;
  print (lit "Question: " ++ QUESTION env);;
  response ← call (AgentCall (QUESTION env)) (agent_call ext);
  print (lit "Answer: " ++ response).

End Simple.

(** *** src/examples/basic-agent/agent-docker-v1/agent.py *)
Module Basic.

Definition MODEL_RUNNER_URL (env : environ) : pystr :=
  getenv_default env "MODEL_RUNNER_URL"
    (lit "http://model-runner.docker.internal/engines/llama.cpp/v1").
Definition MODEL_RUNNER_MODEL (env : environ) : pystr :=
  getenv_default env "MODEL_RUNNER_MODEL" (lit "ai/gemma3:1B-Q4_K_M").
Definition QUESTION : pystr := lit "what time it is in Sydney?".

Definition main (env : environ) (ext : externals) : P unit :=
  let model :=
    {| client_args := {| api_key := lit "sk-insecure";
                         base_url := Some (MODEL_RUNNER_URL env) |};
       model_id := MODEL_RUNNER_MODEL env;
       params := Some {| temperature := 1 # 10; max_tokens := 500 |} |} in
  call (ModelInit model) (failing (model_init ext));;
  let agent :=
    {| agent_model := model;
       agent_tools := [current_time_tool];
       system_prompt :=
         lit "Call current_time(timezone='Australia/Sydney') once, then answer with the time. Do not call tools repeatedly." |} in
  call (AgentInit agent) (failing (agent_init ext));;
  print (lit "🤖 Agent Question: " ++ QUESTION);;
  print (lit "🔄 Processing...");;
  try_except_P
    (response ← call (AgentCall QUESTION) (agent_call ext);
     print (lit "✅ Agent Answer: " ++ response))
    (λ e, print (lit "❌ Error: " ++ exn_str e)).

End Basic.

(** *** src/examples/agent-with-mcp/agent-docker-v7/agent.py *)
Module Mcp.

Definition MODEL_RUNNER_URL (env : environ) : pystr :=
  getenv_default env "MODEL_RUNNER_URL"
    (lit "http://model-runner.docker.internal/engines/llama.cpp/v1").
Definition MODEL_RUNNER_MODEL (env : environ) : pystr :=
  getenv_default env "MODEL_RUNNER_MODEL" (lit "ai/gemma3:1B-Q4_K_M").
Definition OPENAI_MODEL_NAME (env : environ) : pystr :=
  getenv_default env "OPENAI_MODEL_NAME" (lit "gpt-4o-mini").
Definition OPENAI_API_KEY (env : environ) : option pystr :=
  getenv env "OPENAI_API_KEY".
Definition MCP_SERVER_URL (env : environ) : pystr :=
  getenv_default env "MCP_SERVER_URL" (lit "http://mcp-gateway:8811/sse").
Definition QUESTION (env : environ) : pystr :=
  getenv_default env "QUESTION" (lit "Define Zorgon").

Definition out_dir : PurePath := Path (lit "/app/definitions").

Section Tool.

(** [str.isalnum] beyond ASCII is the Unicode database's letter and number
    categories; the table is a parameter of the development. *)
Variable unicode_isalnum : N → bool.

Definition isalnum (c : N) : bool :=
  if c <? 128 then ascii_isalnum c else unicode_isalnum c.

(** [c.isalnum() or c in (' ', '-', '_')]. *)
Definition keep (c : N) : bool :=
  isalnum c || bool_decide (c ∈ [32; 45; 95]).

Definition safe_word (word : pystr) : pystr := strip (List.filter keep word).

Definition file_path (word : pystr) : PurePath :=
  joinpath out_dir (safe_word word ++ lit ".txt").

(** The body of the [try] block. *)
Definition save_definition_try (word definition : pystr) : M pystr :=
  mkdir out_dir true;;
  with_open_w (file_path word) (λ f,
    write f (lit "Definition of '" ++ word ++ lit "':" ++ nl);;
    write f (replicate (length word + 15) 61 ++ nl ++ nl);;
    write f (strip definition ++ nl));;
  mret (lit "✅ The definition for '" ++ word
        ++ lit "' has been found and saved to " ++ path_name (file_path word)
        ++ lit ". Mission Completed!").

Definition save_definition_except (word : pystr) (e : exn) : M pystr :=
  mret (lit "❌ Error saving definition for '" ++ word ++ lit "': " ++ exn_str e).

Definition save_definition (word definition : pystr) : M pystr :=
  try_except (save_definition_try word definition) (save_definition_except word).

End Tool.

(** The line [get_model] prints and the arguments it passes to
    [OpenAIModel]. *)
Definition get_model (env : environ) : pystr * OpenAIModel :=
  let local_model :=
    (lit "🏠 Configuring local model via Docker Model Runner: " ++ MODEL_RUNNER_MODEL env,
     {| client_args := {| api_key := lit "sk-insecure";
                          base_url := Some (MODEL_RUNNER_URL env) |};
        model_id := MODEL_RUNNER_MODEL env;
        params := Some {| temperature := 1 # 10; max_tokens := 1000 |} |}) in
  match OPENAI_API_KEY env with
  | Some key =>
      if truthy key && negb (bool_decide (key = lit "sk-insecure")) then
        (lit "🌐 Configuring OpenAI model: " ++ OPENAI_MODEL_NAME env,
         {| client_args := {| api_key := key; base_url := None |};
            model_id := OPENAI_MODEL_NAME env;
            params := Some {| temperature := 1 # 10; max_tokens := 1000 |} |})
      else local_model
  | None => local_model
  end.

Definition prompt (env : environ) : pystr :=
  join nl [
    lit "You are an intelligent research assistant with access to external tools through MCP Gateway.";
    [];
    lit "Your task is to research and define terms by:";
    lit "1. Using the search tool to find accurate, comprehensive information";
    lit "2. Synthesizing the information into a clear, well-structured definition";
    lit "3. Saving the definition using the save_definition tool";
    lit "4. Confirming completion to the user";
    [];
    lit "## Example Workflow:";
    [];
    lit "Question: " ++ dq ++ lit "What is photosynthesis?" ++ dq;
    [];
    lit "1. Search for information: search(query=" ++ dq
      ++ lit "photosynthesis definition biology" ++ dq ++ lit ")";
    lit "2. Analyze and synthesize the results";
    lit "3. Save the definition: save_definition(" ++ dq ++ lit "Photosynthesis"
      ++ dq ++ lit ", " ++ dq ++ lit "comprehensive definition here" ++ dq ++ lit ")";
    lit "4. Confirm completion";
    [];
    lit "## Your Task:";
    lit "Question: " ++ QUESTION env;
    [];
    lit "Please research this term and provide a comprehensive definition." ].

Definition rule : pystr := replicate 60 61.

(** The body of the [try] block of [main]. *)
Definition main_try (env : environ) (ext : externals) : P unit :=
  let model := (get_model env).2 in
  print (get_model env).1;;
  call (ModelInit model) (failing (model_init ext));;
  print (lit "🔗 Connecting to MCP Gateway at: " ++ MCP_SERVER_URL env);;
  call (ClientInit (MCP_SERVER_URL env)) (failing (client_init ext));;
  with_client ext (
    print (lit "✅ MCP Gateway connection established");;
    mcp_tools ← call ListTools (list_tools_sync ext);
    let all_tools := mcp_tools ++ [save_definition_tool] in
    print (lit "🤖 Creating agent with " ++ str_nat (length all_tools)
           ++ lit " total tools");;
    let agent := {| agent_model := model;
                    agent_tools := all_tools;
                    system_prompt := prompt env |} in
    call (AgentInit agent) (failing (agent_init ext));;
    print (lit "📝 Processing question: " ++ QUESTION env);;
    print (lit "🔄 Agent is working...");;
    response ← call (AgentCall (QUESTION env)) (agent_call ext);
    print (nl ++ rule);;
    print (lit "🎯 Agent Response:");;
    print response;;
    print rule).

(** The [except Exception as e] block of [main]. *)
Definition main_except (e : exn) : P unit :=
  print (lit "❌ Error during agent execution: " ++ exn_str e);;
  print (lit "💡 Troubleshooting tips:");;
  print (lit "   - Check that MCP Gateway is running and accessible");;
  print (lit "   - Verify Docker Model Runner is available (for local models)");;
  print (lit "   - Ensure API keys are properly configured (for cloud models)");;
  print (lit "   - Check network connectivity between services");;
  reraise e.

Definition main (env : environ) (ext : externals) : P unit :=
  print (lit "🚀 Starting Advanced Strands Agent with MCP Gateway Integration");;
  print rule;;
  try_except_P (main_try env ext) main_except.

End Mcp.

(** ** Vocabulary of the properties *)

(** A credential that selects the cloud branch: present, not empty, and not
    the placeholder. *)
Definition usable (key : option pystr) : Prop :=
  ∃ k, key = Some k ∧ k ≠ [] ∧ k ≠ lit "sk-insecure".

(** The cloud configuration: the supplied key as credential, no endpoint
    override, the cloud model identifier. *)
Definition cloud_selected (name : pystr) (key : option pystr) (m : OpenAIModel) : Prop :=
  ∃ k, key = Some k
       ∧ client_args m = {| api_key := k; base_url := None |}
       ∧ model_id m = name.

(** The local configuration: placeholder credential, local endpoint, local
    model identifier. *)
Definition local_selected (url name : pystr) (m : OpenAIModel) : Prop :=
  client_args m = {| api_key := lit "sk-insecure"; base_url := Some url |}
  ∧ model_id m = name.

(** A configuration that carries sampling parameters. *)
Definition fully_specified (m : OpenAIModel) : Prop := is_Some (params m).

(** Where a path leads when every directory on the way exists: [".."]
    steps back, any other part steps down. *)
Definition lexical (cur : location) (comps : list pystr) : location :=
  fold_left (λ cur c, if bool_decide (c = dotdot) then parent cur else cur ++ [c])
    comps cur.

(** The location a rooted pure path names. *)
Definition location_of (p : PurePath) : location := lexical [] (parts p).

(** [w'] differs from [w] at most in the content of the file at [l]. *)
Definition upd (l : location) (w w' : world) : Prop :=
  files w' = files w ∨ ∃ d, files w' = <[l := d]> (files w).

(** The file at [l] exists and holds [d]. *)
Definition holds (l : location) (d : pystr) (w : world) : Prop :=
  nodes w !! l = Some (File d).

(** What the example script writes for a word and a definition. *)
Definition Mcp_content (word definition : pystr) : pystr :=
  (lit "Definition of '" ++ word ++ lit "':" ++ nl)
  ++ (replicate (length word + 15) 61 ++ nl ++ nl)
  ++ (strip definition ++ nl).

(** The entry of the output directory with the given name. *)
Definition in_out_dir (name : pystr) : location :=
  [lit "app"; lit "definitions"; name].

(** The example script's tool reports success with a check mark and failure
    with a cross. *)
Definition reports_success (s : pystr) : bool := startswith s (lit "✅").

(** A location at or below the output directory. *)
Definition under_out_dir (l : location) : Prop :=
  [lit "app"; lit "definitions"] `prefix_of` l.

(** Sample worlds: a container with [/app] (and [/tmp]), and the same
    container on a read-only mount. *)
Definition w_app : world :=
  {| nodes := {[ [lit "app"] := Dir ]}; cwd := [lit "app"]; faults := [] |}.

Definition w_tmp : world :=
  {| nodes := {[ [lit "app"] := Dir; [lit "tmp"] := Dir ]};
     cwd := [lit "app"]; faults := [] |}.

Definition erofs : exn :=
  {| exn_cls := OSError;
     exn_str := lit "[Errno 30] Read-only file system: '/app/definitions'" |}.


(** The gateway protocol a run has to follow. The connection is [Idle]
    before it is acquired, [Fresh] between acquisition and discovery, [Used]
    after discovery, [Closed] after release. Printing is allowed anywhere;
    set-up calls come before the connection; discovery comes once, next
    after acquisition; the agent is built and invoked after discovery with
    the connection open; release closes an open connection. *)
Inductive gw_state := Idle | Fresh | Used | Closed.

Definition gw_step (st : gw_state) (ev : event) : option gw_state :=
  match ev, st with
  | Print _, _ => Some st
  | ModelInit _, Idle | ClientInit _, Idle => Some Idle
  | Acquire, Idle => Some Fresh
  | ListTools, Fresh => Some Used
  | AgentInit _, Used | AgentCall _, Used => Some Used
  | Release, Fresh | Release, Used => Some Closed
  | _, _ => None
  end.

Fixpoint gw_run (st : gw_state) (tr : list event) : option gw_state :=
  match tr with
  | [] => Some st
  | ev :: tr' =>
      match gw_step st ev with
      | Some st' => gw_run st' tr'
      | None => None
      end
  end.

(** The run followed the protocol and did not leave the connection open. *)
Definition scoped (tr : list event) : bool :=
  match gw_run Idle tr with
  | Some Idle | Some Closed => true
  | _ => false
  end.

(** Outcomes of the external calls. *)
Definition ok (o : option exn) : bool :=
  match o with None => true | Some _ => false end.

Definition returned {A} (r : exn + A) : bool :=
  match r with inr _ => true | inl _ => false end.

(** Every external call of a gateway script succeeds. *)
Definition gateway_run_ok (ext : externals) : bool :=
  ok (model_init ext) && ok (client_init ext) && ok (gateway_enter ext)
  && returned (list_tools_sync ext) && ok (agent_init ext)
  && returned (agent_call ext) && ok (gateway_exit ext).

(** Every external call of a script without gateway succeeds. *)
Definition plain_run_ok (ext : externals) : bool :=
  ok (model_init ext) && ok (agent_init ext) && returned (agent_call ext).

(** [e] is an exception one of the external calls raises. *)
Definition raised_by (ext : externals) (e : exn) : Prop :=
  model_init ext = Some e ∨ client_init ext = Some e
  ∨ gateway_enter ext = Some e ∨ list_tools_sync ext = inl e
  ∨ agent_init ext = Some e ∨ agent_call ext = inl e
  ∨ gateway_exit ext = Some e.

(** Sample outcomes: everything works and the gateway offers no tool; the
    model endpoint refuses the connection when the agent is invoked. *)
Definition ext_no_tools : externals :=
  {| model_init := None; client_init := None; gateway_enter := None;
     list_tools_sync := inr []; agent_init := None;
     agent_call := inr (lit "Zorgon is a fictional planet.");
     gateway_exit := None |}.

Definition refused : exn :=
  {| exn_cls := ConnectionError; exn_str := lit "Connection refused" |}.

Definition ext_call_fails : externals :=
  {| model_init := None; client_init := None; gateway_enter := None;
     list_tools_sync := inr []; agent_init := None;
     agent_call := inl refused;
     gateway_exit := None |}.

(** The arguments of the [Agent(...)] calls of a run and the questions it
    submits, in order. *)
Definition agent_inits (tr : list event) : list Agent :=
  omap (λ ev, match ev with AgentInit a => Some a | _ => None end) tr.

Definition questions_asked (tr : list event) : list pystr :=
  omap (λ ev, match ev with AgentCall q => Some q | _ => None end) tr.

(** How often a kind of event occurs in a run. *)
Definition is_acquire (ev : event) : bool :=
  match ev with Acquire => true | _ => false end.

Definition is_release (ev : event) : bool :=
  match ev with Release => true | _ => false end.

Definition is_list_tools (ev : event) : bool :=
  match ev with ListTools => true | _ => false end.

Definition count (p : event → bool) (tr : list event) : nat :=
  length (List.filter p tr).

(** ** Vocabulary of the further properties *)

(** The lines a run prints, in order. *)
Definition printed (tr : list event) : list pystr :=
  omap (λ ev, match ev with Print l => Some l | _ => None end) tr.

(** Calls that concern the gateway client. *)
Definition touches_gateway (ev : event) : bool :=
  match ev with
  | ClientInit _ | Acquire | ListTools | Release => true
  | _ => false
  end.

(** What the top-level [save_definition] writes for a definition. *)
Definition V7_content (definition : pystr) : pystr := strip definition ++ nl.

(** The file at [f] holds [d], and the files are those of [base] with that
    one entry set. *)
Definition wrote (f : location) (d : pystr) (base : gmap location pystr)
    (w : world) : Prop :=
  holds f d w ∧ files w = <[f := d]> base.

(** The part of a name after its last slash. *)
Definition last_segment (s : pystr) : pystr := List.last (split_slash s) [].

(** A world without [/app], and one where [/app/definitions] is a regular
    file. *)
Definition w_bare : world := {| nodes := ∅; cwd := []; faults := [] |}.

Definition w_blocked : world :=
  {| nodes := {[ [lit "app"] := Dir;
                 [lit "app"; lit "definitions"] := File (lit "not a directory") ]};
     cwd := [lit "app"]; faults := [] |}.

(** A gateway that offers two remote tools. *)
Definition ext_two_tools : externals :=
  {| model_init := None; client_init := None; gateway_enter := None;
     list_tools_sync := inr [mcp_tool (lit "search"); mcp_tool (lit "fetch")];
     agent_init := None;
     agent_call := inr (lit "Zorgon is a fictional planet.");
     gateway_exit := None |}.

(** The errors of [mkdir] on the output directory. *)
Definition enoent : exn :=
  os_error FileNotFoundError (lit "[Errno 2] No such file or directory")
    (Path (lit "/app/definitions")).

Definition eexist : exn :=
  os_error FileExistsError (lit "[Errno 17] File exists")
    (Path (lit "/app/definitions")).

(** * Properties *)

Lemma truthy_nonempty (k : pystr) : truthy k = true ↔ k ≠ [].
Proof. destruct k; simpl; split; congruence. Qed.

Lemma usable_dec (key : option pystr) :
  usable key ↔
  match key with
  | Some k => truthy k && negb (bool_decide (k = lit "sk-insecure")) = true
  | None => False
  end.
Proof.
  unfold usable. destruct key as [k|].
  - rewrite andb_true_iff, truthy_nonempty, negb_true_iff, bool_decide_eq_false.
    split.
    + intros (k' & [= <-] & ? & ?). done.
    + intros [? ?]. by exists k.
  - split; [intros (k & ? & _); done | done].
Qed.

Lemma V7_get_model_cloud (env : environ) :
  usable (env !! "OPENAI_API_KEY") →
  ∃ k, env !! "OPENAI_API_KEY" = Some k ∧ k ≠ lit "sk-insecure" ∧
       V7.get_model env =
       {| client_args := {| api_key := k; base_url := None |};
          model_id := V7.OPENAI_MODEL_NAME env;
          params := None |}.
Proof.
  intros Hu. pose proof Hu as (k & Hk & Hne & Hsk).
  apply usable_dec in Hu. rewrite Hk in Hu.
  exists k. split_and!; try done.
  unfold V7.get_model, V7.OPENAI_API_KEY, getenv. rewrite Hk, Hu. done.
Qed.

Lemma V7_get_model_local (env : environ) :
  ¬ usable (env !! "OPENAI_API_KEY") →
  V7.get_model env =
  {| client_args := {| api_key := lit "sk-insecure";
                       base_url := Some (V7.MODEL_RUNNER_URL env) |};
     model_id := V7.MODEL_RUNNER_MODEL env;
     params := Some {| temperature := 0 # 1; max_tokens := 512 |} |}.
Proof.
  intros Hu. rewrite usable_dec in Hu.
  unfold V7.get_model, V7.OPENAI_API_KEY, getenv.
  destruct (env !! "OPENAI_API_KEY") as [k|]; [|done].
  apply not_true_is_false in Hu. by rewrite Hu.
Qed.

Lemma Mcp_get_model_cloud (env : environ) :
  usable (env !! "OPENAI_API_KEY") →
  ∃ k, env !! "OPENAI_API_KEY" = Some k ∧ k ≠ lit "sk-insecure" ∧
       (Mcp.get_model env).2 =
       {| client_args := {| api_key := k; base_url := None |};
          model_id := Mcp.OPENAI_MODEL_NAME env;
          params := Some {| temperature := 1 # 10; max_tokens := 1000 |} |}.
Proof.
  intros Hu. pose proof Hu as (k & Hk & Hne & Hsk).
  apply usable_dec in Hu. rewrite Hk in Hu.
  exists k. split_and!; try done.
  unfold Mcp.get_model, Mcp.OPENAI_API_KEY, getenv. rewrite Hk, Hu. done.
Qed.

Lemma Mcp_get_model_local (env : environ) :
  ¬ usable (env !! "OPENAI_API_KEY") →
  (Mcp.get_model env).2 =
  {| client_args := {| api_key := lit "sk-insecure";
                       base_url := Some (Mcp.MODEL_RUNNER_URL env) |};
     model_id := Mcp.MODEL_RUNNER_MODEL env;
     params := Some {| temperature := 1 # 10; max_tokens := 1000 |} |}.
Proof.
  intros Hu. rewrite usable_dec in Hu.
  unfold Mcp.get_model, Mcp.OPENAI_API_KEY, getenv.
  destruct (env !! "OPENAI_API_KEY") as [k|]; [|done].
  apply not_true_is_false in Hu. by rewrite Hu.
Qed.

Lemma usable_decidable (key : option pystr) : usable key ∨ ¬ usable key.
Proof.
  rewrite usable_dec. destruct key as [k|]; [|tauto].
  destruct (truthy k && negb (bool_decide (k = lit "sk-insecure"))); [by left|right; discriminate].
Qed.

(** Moving an environment variable does not touch the other settings. *)
Lemma getenv_default_insert_ne (env : environ) (k k' : string) (v d : pystr) :
  k ≠ k' → getenv_default (<[k := v]> env) k' d = getenv_default env k' d.
Proof. intros. unfold getenv_default. by rewrite lookup_insert_ne. Qed.

Lemma getenv_default_delete_ne (env : environ) (k k' : string) (d : pystr) :
  k ≠ k' → getenv_default (delete k env) k' d = getenv_default env k' d.
Proof. intros. unfold getenv_default. by rewrite lookup_delete_ne. Qed.

(** C1: [get_model] (both MCP scripts) selects the cloud configuration
    exactly when OPENAI_API_KEY is present, non-empty and different from
    "sk-insecure", and the local configuration (placeholder credential, local
    endpoint, local model identifier) exactly otherwise; an empty key gives
    the same result as an unset one. *)
Theorem get_model_selection (env : environ) :
  let key := env !! "OPENAI_API_KEY" in
  (usable key ↔ cloud_selected (V7.OPENAI_MODEL_NAME env) key (V7.get_model env))
  ∧ (¬ usable key ↔
       local_selected (V7.MODEL_RUNNER_URL env) (V7.MODEL_RUNNER_MODEL env)
         (V7.get_model env))
  ∧ (usable key ↔
       cloud_selected (Mcp.OPENAI_MODEL_NAME env) key (Mcp.get_model env).2)
  ∧ (¬ usable key ↔
       local_selected (Mcp.MODEL_RUNNER_URL env) (Mcp.MODEL_RUNNER_MODEL env)
         (Mcp.get_model env).2)
  ∧ V7.get_model (<["OPENAI_API_KEY" := []]> env)
    = V7.get_model (delete "OPENAI_API_KEY" env)
  ∧ Mcp.get_model (<["OPENAI_API_KEY" := []]> env)
    = Mcp.get_model (delete "OPENAI_API_KEY" env).
Proof.
  intros key. subst key.
  assert (Hcl : ∀ name m, client_args m =
            {| api_key := lit "sk-insecure"; base_url := Some name |} →
            ∀ n, ¬ cloud_selected n (env !! "OPENAI_API_KEY") m).
  { intros name m Hm n (k & _ & Hc & _). rewrite Hc in Hm. discriminate. }
  split_and!.
  - split.
    + intros Hu. destruct (V7_get_model_cloud env Hu) as (k & Hk & _ & ->).
      by exists k.
    + intros Hc. destruct (usable_decidable (env !! "OPENAI_API_KEY")) as [|Hn]; [done|].
      exfalso. eapply Hcl; [|exact Hc]. by rewrite (V7_get_model_local env Hn).
  - split.
    + intros Hn. by rewrite (V7_get_model_local env Hn).
    + intros [Hl _] Hu. destruct (V7_get_model_cloud env Hu) as (k & _ & Hsk & Heq).
      rewrite Heq in Hl. simpl in Hl. congruence.
  - split.
    + intros Hu. destruct (Mcp_get_model_cloud env Hu) as (k & Hk & _ & ->).
      by exists k.
    + intros Hc. destruct (usable_decidable (env !! "OPENAI_API_KEY")) as [|Hn]; [done|].
      exfalso. eapply Hcl; [|exact Hc]. by rewrite (Mcp_get_model_local env Hn).
  - split.
    + intros Hn. by rewrite (Mcp_get_model_local env Hn).
    + intros [Hl _] Hu. destruct (Mcp_get_model_cloud env Hu) as (k & _ & Hsk & Heq).
      rewrite Heq in Hl. simpl in Hl. congruence.
  - unfold V7.get_model, V7.OPENAI_API_KEY, getenv.
    rewrite lookup_insert_eq, lookup_delete_eq. simpl.
    unfold V7.MODEL_RUNNER_URL, V7.MODEL_RUNNER_MODEL.
    by rewrite !getenv_default_insert_ne, !getenv_default_delete_ne.
  - unfold Mcp.get_model, Mcp.OPENAI_API_KEY, getenv.
    rewrite lookup_insert_eq, lookup_delete_eq. simpl.
    unfold Mcp.MODEL_RUNNER_URL, Mcp.MODEL_RUNNER_MODEL.
    by rewrite !getenv_default_insert_ne, !getenv_default_delete_ne.
Qed.

(** With a usable key the top-level script hands [OpenAIModel] no sampling
    parameters at all. *)
Lemma V7_cloud_model_not_fully_specified :
  ¬ fully_specified (V7.get_model {[ "OPENAI_API_KEY" := lit "sk-live-123" ]}).
Proof. vm_compute. intros [x Hx]. discriminate. Qed.

(** C9 (as amended): in the example script both branches of [get_model]
    carry sampling parameters (temperature 0.1, at most 1000 tokens); in the
    top-level script the local branch carries them (temperature 0.0, at most
    512 tokens) and the cloud branch carries none. Every branch carries a
    model identifier and a credential. *)
Theorem get_model_sampling (env : environ) :
  let key := env !! "OPENAI_API_KEY" in
  params (Mcp.get_model env).2
    = Some {| temperature := 1 # 10; max_tokens := 1000 |}
  ∧ fully_specified (Mcp.get_model env).2
  ∧ (usable key ↔ params (V7.get_model env) = None)
  ∧ (¬ usable key ↔
       params (V7.get_model env) = Some {| temperature := 0 # 1; max_tokens := 512 |})
  ∧ (fully_specified (V7.get_model env) ↔ ¬ usable key).
Proof.
  intros key. subst key.
  destruct (usable_decidable (env !! "OPENAI_API_KEY")) as [Hu|Hn].
  - destruct (V7_get_model_cloud env Hu) as (k & _ & _ & HV).
    destruct (Mcp_get_model_cloud env Hu) as (k' & _ & _ & HM).
    rewrite HV, HM. unfold fully_specified. simpl.
    split_and!; [done | by eexists | tauto | | ].
    + split; [tauto | discriminate].
    + split; [intros [? ?]; discriminate | tauto].
  - rewrite (V7_get_model_local env Hn), (Mcp_get_model_local env Hn).
    unfold fully_specified. simpl.
    split_and!; [done | by eexists | | tauto | ].
    + split; [tauto | discriminate].
    + split; [done | by eexists].
Qed.

(** ** The file-system primitives *)

Lemma bind_inv {A B} (m : M A) (f : A → M B) w r w' :
  (m ≫= f) w = (r, w') →
  (∃ e, m w = (inl e, w') ∧ r = inl e)
  ∨ (∃ a w1, m w = (inr a, w1) ∧ f a w1 = (r, w')).
Proof.
  unfold mbind, M_bind. destruct (m w) as [[e|a] w1]; intros H.
  - left. exists e. by inversion H.
  - right. by exists a, w1.
Qed.

Lemma pair_eq_fst {A B} (p : A * B) (a : A) : p.1 = a → p = (a, p.2).
Proof. destruct p. simpl. by intros ->. Qed.

Lemma with_open_w_inv {A} (p : PurePath) (body : location → M A) w r w' :
  with_open_w p body w = (r, w') →
  (∃ e, open_w p w = (inl e, w') ∧ r = inl e)
  ∨ (∃ f w1 rb w2, open_w p w = (inr f, w1) ∧ body f w1 = (rb, w2)
       ∧ ((∃ e, close f w2 = (inl e, w') ∧ r = inl e)
          ∨ (close f w2 = (inr (), w') ∧ r = rb))).
Proof.
  unfold with_open_w. destruct (open_w p w) as [[e|f] w1]; intros H.
  - left. exists e. by inversion H.
  - right. destruct (body f w1) as [rb w2] eqn:Hb.
    exists f, w1, rb, w2. split_and!; try done.
    destruct (close f w2) as [[e'|[]] w3]; inversion H; subst; eauto.
Qed.

Lemma files_set_nodes w n : files (set_nodes w n) = omap file_data n.
Proof. done. Qed.

Lemma syscall_nodes w r w' : syscall w = (r, w') → nodes w' = nodes w ∧ cwd w' = cwd w.
Proof.
  unfold syscall. destruct (faults w) as [|[e|] fs]; intros [= <- <-]; done.
Qed.

Lemma syscall_files w r w' : syscall w = (r, w') → files w' = files w.
Proof. intros H. apply syscall_nodes in H as [H _]. unfold files. by rewrite H. Qed.

Lemma upd_refl l w : upd l w w.
Proof. by left. Qed.

Lemma upd_files l w w' : files w' = files w → upd l w w'.
Proof. by left. Qed.

Lemma upd_trans l w1 w2 w3 : upd l w1 w2 → upd l w2 w3 → upd l w1 w3.
Proof.
  intros [H12|[d H12]] [H23|[d' H23]]; unfold upd; rewrite H23, H12; eauto.
  right. exists d'. apply insert_insert_eq.
Qed.

Lemma lexical_cons cur c rest :
  lexical cur (c :: rest)
  = lexical (if bool_decide (c = dotdot) then parent cur else cur ++ [c]) rest.
Proof. done. Qed.

Lemma walk_lexical n p cur comps l :
  walk n p cur comps = inr l → l = lexical cur comps.
Proof.
  revert cur. induction comps as [|c rest IH]; intros cur; simpl.
  - by intros [= <-].
  - destruct (is_dir n cur); [apply IH|].
    destruct (n !! cur) as [[|?]|]; discriminate.
Qed.

Lemma resolve_lexical w p l :
  root p ≠ 0 → resolve w p = inr l → l = location_of p.
Proof.
  intros Hr. unfold resolve. apply N.eqb_neq in Hr. rewrite Hr.
  apply walk_lexical.
Qed.

Lemma mkdir_files p ok w r w' : mkdir p ok w = (r, w') → files w' = files w.
Proof.
  intros H. apply bind_inv in H as [(e & H & _)|([] & w1 & H1 & H)].
  - by apply syscall_files in H.
  - apply syscall_files in H1. rewrite <- H1. clear H1.
    destruct (resolve w1 p) as [e|l]; [by inversion H|].
    destruct (is_dir (nodes w1) l); [destruct ok; by inversion H|].
    destruct (nodes w1 !! l) as [x|] eqn:Hl; inversion H; subst; [done|].
    rewrite files_set_nodes. unfold files.
    rewrite omap_insert_None; [|done].
    apply delete_id. by rewrite lookup_omap, Hl.
Qed.

Lemma open_w_error p w e w' : open_w p w = (inl e, w') → files w' = files w.
Proof.
  intros H. apply bind_inv in H as [(e' & H & _)|([] & w1 & H1 & H)].
  - by apply syscall_files in H.
  - apply syscall_files in H1. rewrite <- H1.
    destruct (resolve w1 p) as [e'|l]; [by inversion H|].
    destruct (is_dir (nodes w1) l); by inversion H.
Qed.

Lemma open_w_ok p w f w' :
  root p ≠ 0 → open_w p w = (inr f, w') →
  f = location_of p ∧ holds f [] w' ∧ files w' = <[f := []]> (files w).
Proof.
  intros Hr H. apply bind_inv in H as [(e' & H & ?)|([] & w1 & H1 & H)]; [done|].
  apply syscall_files in H1. rewrite <- H1.
  destruct (resolve w1 p) as [e'|l] eqn:Hres; [by inversion H|].
  apply resolve_lexical in Hres; [|done].
  destruct (is_dir (nodes w1) l); inversion H; subst.
  split_and!; [done| |].
  - unfold holds. simpl. apply lookup_insert_eq.
  - rewrite files_set_nodes. by apply omap_insert_Some.
Qed.

Lemma write_upd f s w r w' : write f s w = (r, w') → upd f w w'.
Proof.
  intros H. apply bind_inv in H as [(e' & H & ?)|([] & w1 & H1 & H)].
  - apply upd_files. by apply syscall_files in H.
  - apply syscall_files in H1. inversion H; subst.
    unfold upd. rewrite <- H1, files_set_nodes. unfold files.
    destruct (nodes w1 !! f) as [[|d]|] eqn:Hf.
    + left. apply map_eq. intros i. rewrite !lookup_omap.
      destruct (decide (i = f)) as [->|Hne].
      * by rewrite lookup_alter_eq, Hf.
      * by rewrite lookup_alter_ne.
    + right. exists (d ++ s). apply map_eq. intros i.
      destruct (decide (i = f)) as [->|Hne].
      * by rewrite lookup_insert_eq, lookup_omap, lookup_alter_eq, Hf.
      * by rewrite lookup_insert_ne, !lookup_omap, lookup_alter_ne.
    + left. apply map_eq. intros i. rewrite !lookup_omap.
      destruct (decide (i = f)) as [->|Hne].
      * by rewrite lookup_alter_eq, Hf.
      * by rewrite lookup_alter_ne.
Qed.

Lemma write_ok f s d w w' :
  holds f d w → write f s w = (inr (), w') →
  holds f (d ++ s) w' ∧ files w' = <[f := d ++ s]> (files w).
Proof.
  unfold holds. intros Hd H.
  apply bind_inv in H as [(e' & H & ?)|([] & w1 & H1 & H)]; [done|].
  pose proof (syscall_files _ _ _ H1) as Hf.
  apply syscall_nodes in H1 as [Hn _]. rewrite <- Hn in Hd.
  inversion H; subst. rewrite <- Hf, files_set_nodes. simpl. split.
  - by rewrite lookup_alter_eq, Hd.
  - unfold files. apply map_eq. intros i.
    destruct (decide (i = f)) as [->|Hne].
    + by rewrite lookup_insert_eq, lookup_omap, lookup_alter_eq, Hd.
    + by rewrite lookup_insert_ne, !lookup_omap, lookup_alter_ne.
Qed.

Lemma close_files f w r w' : close f w = (r, w') → files w' = files w.
Proof. apply syscall_files. Qed.

(** ** Paths of the tools *)

Lemma joinpath_rooted (a : PurePath) (seg : pystr) :
  root a ≠ 0 → root (joinpath a seg) ≠ 0.
Proof.
  intros Ha. unfold joinpath.
  destruct (root (Path seg) =? 0) eqn:Hb; [done|]. by apply N.eqb_neq.
Qed.

Lemma out_dir_rooted : root (Path (lit "/app/definitions")) ≠ 0.
Proof. vm_compute. discriminate. Qed.

Lemma lstrip_suffix (s : pystr) : ∃ l, s = l ++ lstrip s ∧ Forall (λ c, isspace c = true) l.
Proof.
  induction s as [|c s (l & IH & Hl)]; simpl.
  - by exists [].
  - destruct (isspace c) eqn:Hc.
    + exists (c :: l). split; [simpl; congruence | by constructor].
    + by exists [].
Qed.

Lemma strip_middle (s : pystr) :
  ∃ l r, s = l ++ strip s ++ r
         ∧ Forall (λ c, isspace c = true) l ∧ Forall (λ c, isspace c = true) r.
Proof.
  destruct (lstrip_suffix s) as (l & Hs & Hl).
  destruct (lstrip_suffix (rev (lstrip s))) as (r & Hr & Hrr).
  exists l, (rev r). split_and!; [|done|by apply Forall_rev].
  unfold strip, rstrip. rewrite Hs at 1. f_equal.
  rewrite <- rev_app_distr, <- Hr. by rewrite rev_involutive.
Qed.

Lemma lstrip_head (s : pystr) c s' : lstrip s = c :: s' → isspace c = false.
Proof.
  induction s as [|a s IH]; simpl; [done|].
  destruct (isspace a) eqn:Ha; [done|]. congruence.
Qed.

Lemma strip_head (s : pystr) c s' : strip s = c :: s' → isspace c = false.
Proof.
  unfold strip, rstrip. intros H.
  destruct (lstrip_suffix (rev (lstrip s))) as (r & Hr & Hrr).
  apply (f_equal (@rev N)) in Hr. rewrite rev_involutive, rev_app_distr, H in Hr.
  simpl in Hr. apply (lstrip_head s c (s' ++ rev r)). done.
Qed.

Lemma strip_last (s : pystr) c s' : strip s = s' ++ [c] → isspace c = false.
Proof.
  unfold strip, rstrip. intros H.
  apply (f_equal (@rev N)) in H. rewrite rev_involutive, rev_app_distr in H.
  simpl in H. by apply lstrip_head in H.
Qed.

Lemma strip_subset (s : pystr) c : c ∈ strip s → c ∈ s.
Proof.
  destruct (strip_middle s) as (l & r & Hs & _). intros Hc.
  rewrite Hs. set_solver.
Qed.

Lemma split_slash_plain (s : pystr) : 47 ∉ s → split_slash s = [s].
Proof.
  induction s as [|c s IH]; simpl; [done|]. intros Hn.
  destruct (c =? 47) eqn:Hc.
  - apply N.eqb_eq in Hc. set_solver.
  - rewrite IH; [done|set_solver].
Qed.

Lemma Path_plain (s : pystr) :
  47 ∉ s → s ≠ [] → s ≠ [46] → Path s = {| root := 0; parts := [s] |}.
Proof.
  intros Hn H0 H1. unfold Path, splitroot.
  assert (take 1 s ≠ [47]) as Ht.
  { destruct s as [|c s]; [done|]. simpl. rewrite take_0. intros [= ->]. set_solver. }
  rewrite bool_decide_eq_false_2 by done. simpl.
  rewrite split_slash_plain by done. simpl. unfold real_segment.
  by rewrite !bool_decide_eq_false_2.
Qed.

Lemma with_open_w_upd {A} (p : PurePath) (body : location → M A) w r w' :
  root p ≠ 0 →
  (∀ f w1 rb w2, body f w1 = (rb, w2) → upd f w1 w2) →
  with_open_w p body w = (r, w') → upd (location_of p) w w'.
Proof.
  intros Hr Hbody H.
  apply with_open_w_inv in H
    as [(e & H & _)|(f & w1 & rb & w2 & Ho & Hb & Hc)].
  - apply upd_files. by apply open_w_error in H.
  - apply open_w_ok in Ho as (-> & _ & Hf); [|done].
    apply Hbody in Hb.
    assert (files w' = files w2) as Hw.
    { destruct Hc as [(e & Hc & _)|[Hc _]]; by apply close_files in Hc. }
    eapply upd_trans; [right; eexists; exact Hf|].
    eapply upd_trans; [exact Hb|]. by apply upd_files.
Qed.

Lemma with_open_w_ok {A} (p : PurePath) (body : location → M A) content w a w' :
  root p ≠ 0 →
  (∀ f w1 b w2, holds f [] w1 → body f w1 = (inr b, w2) →
                files w2 = <[f := content]> (files w1)) →
  with_open_w p body w = (inr a, w') →
  files w' = <[location_of p := content]> (files w).
Proof.
  intros Hr Hbody H.
  apply with_open_w_inv in H
    as [(e & H & ?)|(f & w1 & rb & w2 & Ho & Hb & Hc)]; [done|].
  apply open_w_ok in Ho as (-> & Hh & Hf); [|done].
  destruct Hc as [(e & _ & ?)|[Hc <-]]; [done|].
  apply close_files in Hc. rewrite Hc, (Hbody _ _ _ _ Hh Hb), Hf.
  apply insert_insert_eq.
Qed.

(** ** The top-level save tools *)

Lemma V7_file_path_rooted word : root (V7.file_path word) ≠ 0.
Proof. apply joinpath_rooted, out_dir_rooted. Qed.

Lemma Simple_file_path_rooted filename : root (Simple.file_path filename) ≠ 0.
Proof. apply joinpath_rooted, out_dir_rooted. Qed.

Lemma V7_save_upd word definition w r w' :
  V7.save_definition word definition w = (r, w') →
  upd (location_of (V7.file_path word)) w w'.
Proof.
  intros H. unfold V7.save_definition in H.
  apply bind_inv in H as [(e & H & _)|([] & w1 & Hm & H)].
  { apply upd_files. by apply mkdir_files in H. }
  apply mkdir_files in Hm.
  eapply upd_trans; [apply upd_files; exact Hm|].
  apply bind_inv in H as [(e & H & _)|([] & w2 & Ho & H)].
  - eapply with_open_w_upd; [apply V7_file_path_rooted| |exact H].
    intros ????. apply write_upd.
  - inversion H; subst.
    eapply with_open_w_upd; [apply V7_file_path_rooted| |exact Ho].
    intros ????. apply write_upd.
Qed.

Lemma V7_save_ok word definition w s w' :
  V7.save_definition word definition w = (inr s, w') →
  s = lit "The definition for '" ++ word
      ++ lit "' has been found and saved. Mission Completed! Stop"
  ∧ files w' = <[location_of (V7.file_path word) := strip definition ++ nl]> (files w).
Proof.
  intros H. unfold V7.save_definition in H.
  apply bind_inv in H as [(e & _ & ?)|([] & w1 & Hm & H)]; [done|].
  apply mkdir_files in Hm.
  apply bind_inv in H as [(e & _ & ?)|([] & w2 & Ho & H)]; [done|].
  inversion H; subst. split; [done|]. rewrite <- Hm.
  eapply with_open_w_ok; [apply V7_file_path_rooted| |exact Ho].
  intros f wa [] wb Hh Hw. by apply (write_ok f _ []) in Hw as [_ Hw].
Qed.

Lemma Simple_save_upd filename content w r w' :
  Simple.save_file filename content w = (r, w') →
  upd (location_of (Simple.file_path filename)) w w'.
Proof.
  intros H. unfold Simple.save_file in H.
  apply bind_inv in H as [(e & H & _)|([] & w1 & Hm & H)].
  { apply upd_files. by apply mkdir_files in H. }
  apply mkdir_files in Hm.
  eapply upd_trans; [apply upd_files; exact Hm|].
  apply bind_inv in H as [(e & H & _)|([] & w2 & Ho & H)].
  - eapply with_open_w_upd; [apply Simple_file_path_rooted| |exact H].
    intros ????. apply write_upd.
  - inversion H; subst.
    eapply with_open_w_upd; [apply Simple_file_path_rooted| |exact Ho].
    intros ????. apply write_upd.
Qed.

Lemma Simple_save_ok filename content w s w' :
  Simple.save_file filename content w = (inr s, w') →
  s = lit "Saved to " ++ path_str (Simple.file_path filename)
  ∧ files w' = <[location_of (Simple.file_path filename) := content]> (files w).
Proof.
  intros H. unfold Simple.save_file in H.
  apply bind_inv in H as [(e & _ & ?)|([] & w1 & Hm & H)]; [done|].
  apply mkdir_files in Hm.
  apply bind_inv in H as [(e & _ & ?)|([] & w2 & Ho & H)]; [done|].
  inversion H; subst. split; [done|]. rewrite <- Hm.
  eapply with_open_w_ok; [apply Simple_file_path_rooted| |exact Ho].
  intros f wa [] wb Hh Hw. by apply (write_ok f _ []) in Hw as [_ Hw].
Qed.

(** ** The save tool of the example script *)

Section McpTool.

Variable u : N → bool.

Lemma keep_slash : Mcp.keep u 47 = false.
Proof. reflexivity. Qed.

Lemma safe_word_keep word c : c ∈ Mcp.safe_word u word → Mcp.keep u c = true.
Proof.
  unfold Mcp.safe_word. intros Hc. apply strip_subset in Hc.
  apply list_elem_of_In, filter_In in Hc. tauto.
Qed.

Lemma safe_word_no_slash word : 47 ∉ Mcp.safe_word u word.
Proof. intros Hc. apply safe_word_keep in Hc. by rewrite keep_slash in Hc. Qed.

Lemma Mcp_file_path_parts word :
  Mcp.file_path u word =
  {| root := 1; parts := in_out_dir (Mcp.safe_word u word ++ lit ".txt") |}.
Proof.
  unfold Mcp.file_path, joinpath. rewrite Path_plain.
  - reflexivity.
  - pose proof (safe_word_no_slash word). intros Hin.
    apply elem_of_app in Hin as [Hin|Hin]; [done|].
    revert Hin. apply (bool_decide_unpack (47 ∉ lit ".txt")). by vm_compute.
  - by destruct (Mcp.safe_word u word).
  - destruct (Mcp.safe_word u word) as [|? [|? ?]]; vm_compute; discriminate.
Qed.

Lemma Mcp_location word :
  location_of (Mcp.file_path u word)
  = in_out_dir (Mcp.safe_word u word ++ lit ".txt").
Proof.
  rewrite Mcp_file_path_parts. unfold location_of, in_out_dir.
  cbn [parts]. rewrite !lexical_cons.
  rewrite (bool_decide_eq_false_2 (lit "app" = dotdot)) by (vm_compute; discriminate).
  rewrite (bool_decide_eq_false_2 (lit "definitions" = dotdot))
    by (vm_compute; discriminate).
  rewrite bool_decide_eq_false_2; [done|].
  destruct (Mcp.safe_word u word) as [|? [|? [|? ?]]]; vm_compute; discriminate.
Qed.

Lemma Mcp_file_path_rooted word : root (Mcp.file_path u word) ≠ 0.
Proof. apply joinpath_rooted, out_dir_rooted. Qed.

Lemma Mcp_body_upd word definition f w r w' :
  (write f (lit "Definition of '" ++ word ++ lit "':" ++ nl);;
   write f (replicate (length word + 15) 61 ++ nl ++ nl);;
   write f (strip definition ++ nl)) w = (r, w') →
  upd f w w'.
Proof.
  intros H.
  apply bind_inv in H as [(e & H & _)|([] & w1 & H1 & H)]; [by apply write_upd in H|].
  apply write_upd in H1. eapply upd_trans; [exact H1|].
  apply bind_inv in H as [(e & H & _)|([] & w2 & H2 & H)]; [by apply write_upd in H|].
  apply write_upd in H2. eapply upd_trans; [exact H2|].
  by apply write_upd in H.
Qed.

Lemma Mcp_body_ok word definition f w b w' :
  holds f [] w →
  (write f (lit "Definition of '" ++ word ++ lit "':" ++ nl);;
   write f (replicate (length word + 15) 61 ++ nl ++ nl);;
   write f (strip definition ++ nl)) w = (inr b, w') →
  files w' = <[f := Mcp_content word definition]> (files w).
Proof.
  intros Hh H.
  apply bind_inv in H as [(e & _ & ?)|([] & w1 & H1 & H)]; [done|].
  apply (write_ok _ _ _ _ _ Hh) in H1 as [Hh1 Hf1].
  apply bind_inv in H as [(e & _ & ?)|([] & w2 & H2 & H)]; [done|].
  apply (write_ok _ _ _ _ _ Hh1) in H2 as [Hh2 Hf2].
  destruct b. apply (write_ok _ _ _ _ _ Hh2) in H as [_ Hf3].
  rewrite Hf3, Hf2, Hf1, !insert_insert_eq. unfold Mcp_content.
  by rewrite app_nil_l, <- app_assoc.
Qed.

Lemma Mcp_try_upd word definition w r w' :
  Mcp.save_definition_try u word definition w = (r, w') →
  upd (in_out_dir (Mcp.safe_word u word ++ lit ".txt")) w w'.
Proof.
  intros H. unfold Mcp.save_definition_try in H. rewrite <- Mcp_location.
  apply bind_inv in H as [(e & H & _)|([] & w1 & Hm & H)].
  { apply upd_files. by apply mkdir_files in H. }
  apply mkdir_files in Hm.
  eapply upd_trans; [apply upd_files; exact Hm|].
  apply bind_inv in H as [(e & H & _)|([] & w2 & Ho & H)].
  - eapply with_open_w_upd; [apply Mcp_file_path_rooted| |exact H].
    intros ????. apply Mcp_body_upd.
  - inversion H; subst.
    eapply with_open_w_upd; [apply Mcp_file_path_rooted| |exact Ho].
    intros ????. apply Mcp_body_upd.
Qed.

Lemma Mcp_try_ok word definition w s w' :
  Mcp.save_definition_try u word definition w = (inr s, w') →
  s = lit "✅ The definition for '" ++ word
      ++ lit "' has been found and saved to "
      ++ (Mcp.safe_word u word ++ lit ".txt")
      ++ lit ". Mission Completed!"
  ∧ files w' = <[in_out_dir (Mcp.safe_word u word ++ lit ".txt")
                 := Mcp_content word definition]> (files w).
Proof.
  intros H. unfold Mcp.save_definition_try in H. rewrite <- Mcp_location.
  apply bind_inv in H as [(e & _ & ?)|([] & w1 & Hm & H)]; [done|].
  apply mkdir_files in Hm.
  apply bind_inv in H as [(e & _ & ?)|([] & w2 & Ho & H)]; [done|].
  inversion H; subst. split.
  - by rewrite Mcp_file_path_parts.
  - rewrite <- Hm.
    eapply with_open_w_ok; [apply Mcp_file_path_rooted| |exact Ho].
    intros f wa b wb. apply Mcp_body_ok.
Qed.

(** The tool returns whatever the [try] block returns, or the error line. *)
Lemma Mcp_save_cases word definition w :
  match Mcp.save_definition_try u word definition w with
  | (inr s, w') => Mcp.save_definition u word definition w = (inr s, w')
  | (inl e, w') =>
      Mcp.save_definition u word definition w
      = (inr (lit "❌ Error saving definition for '" ++ word ++ lit "': "
              ++ exn_str e), w')
  end.
Proof.
  unfold Mcp.save_definition, try_except.
  by destruct (Mcp.save_definition_try u word definition w) as [[e|s] w'].
Qed.

Lemma Mcp_save_upd word definition w r w' :
  Mcp.save_definition u word definition w = (r, w') →
  upd (in_out_dir (Mcp.safe_word u word ++ lit ".txt")) w w'.
Proof.
  pose proof (Mcp_save_cases word definition w) as Hc.
  destruct (Mcp.save_definition_try u word definition w) as [[e|s] w1] eqn:Ht;
    rewrite Hc; intros [= <- <-]; by apply Mcp_try_upd in Ht.
Qed.

End McpTool.

(** ** Filename sanitization *)

(** The top-level script uses the word as it comes: "C++/C#" names the file
    [C#.txt] in a subdirectory [C++], not [CC.txt]. *)
Lemma V7_file_name_not_sanitized :
  path_str (V7.file_path (lit "C++/C#")) = lit "/app/definitions/C++/C#.txt"
  ∧ V7.file_path (lit "C++/C#") ≠ joinpath V7.out_dir (lit "CC" ++ lit ".txt").
Proof. split; [by vm_compute | vm_compute; discriminate]. Qed.

Lemma keep_spec (u : N → bool) (c : N) :
  Mcp.keep u c = true ↔ Mcp.isalnum u c = true ∨ c = 32 ∨ c = 45 ∨ c = 95.
Proof.
  unfold Mcp.keep. rewrite orb_true_iff, bool_decide_eq_true.
  rewrite !elem_of_cons, elem_of_nil. tauto.
Qed.

Lemma path_str_in_out_dir (name : pystr) :
  path_str {| root := 1; parts := in_out_dir name |}
  = lit "/app/definitions/" ++ name.
Proof. reflexivity. Qed.

(** C2 (as amended): in the example script, for every word, the filename
    base consists of the word's alphanumeric, space, hyphen and underscore
    characters in their order, with the whitespace at both ends removed;
    "C++/C#" gives "CC"; the file written is that base plus ".txt", directly
    in /app/definitions. The top-level script joins the word plus ".txt" to
    the directory as it comes. *)
Theorem save_definition_sanitizes (u : N → bool) (word : pystr) :
  let base := Mcp.safe_word u word in
  (∀ c, c ∈ base → Mcp.isalnum u c = true ∨ c = 32 ∨ c = 45 ∨ c = 95)
  ∧ (∃ l r, List.filter (Mcp.keep u) word = l ++ base ++ r
            ∧ Forall (λ c, isspace c = true) l
            ∧ Forall (λ c, isspace c = true) r)
  ∧ (∀ c rest, base = c :: rest → isspace c = false)
  ∧ (∀ c init, base = init ++ [c] → isspace c = false)
  ∧ Mcp.safe_word u (lit "C++/C#") = lit "CC"
  ∧ path_str (Mcp.file_path u word) = lit "/app/definitions/" ++ base ++ lit ".txt"
  ∧ path_name (Mcp.file_path u word) = base ++ lit ".txt"
  ∧ (∀ definition w s w',
       Mcp.save_definition_try u word definition w = (inr s, w') →
       files w' = <[in_out_dir (base ++ lit ".txt") := Mcp_content word definition]>
                    (files w))
  ∧ V7.file_path word = joinpath (Path (lit "/app/definitions")) (word ++ lit ".txt").
Proof.
  intros base. subst base. split_and!.
  - intros c Hc. by apply keep_spec, (safe_word_keep u word).
  - apply strip_middle.
  - apply strip_head.
  - apply strip_last.
  - by vm_compute.
  - by rewrite Mcp_file_path_parts, path_str_in_out_dir.
  - by rewrite Mcp_file_path_parts.
  - intros definition w s w' H. by apply Mcp_try_ok in H as [_ H].
  - reflexivity.
Qed.

Lemma save_definition_sanitizes_witness :
  let run := Mcp.save_definition_try (λ _, false) (lit "C++/C#") (lit "a language") w_app in
  files run.2
  = <[in_out_dir (Mcp.safe_word (λ _, false) (lit "C++/C#") ++ lit ".txt")
      := Mcp_content (lit "C++/C#") (lit "a language")]> (files w_app).
Proof.
  intros run.
  pose proof (save_definition_sanitizes (λ _, false) (lit "C++/C#"))
    as (_ & _ & _ & _ & _ & _ & _ & H & _).
  refine (H (lit "a language") w_app
    (lit "✅ The definition for 'C++/C#' has been found and saved to CC.txt. Mission Completed!")
    run.2 _).
  apply pair_eq_fst. vm_compute. reflexivity.
Defined.

(** ** Overwrite semantics *)


Lemma Mcp_save_success (u : N → bool) word definition w s w' :
  Mcp.save_definition u word definition w = (inr s, w') →
  reports_success s = true →
  Mcp.save_definition_try u word definition w = (inr s, w').
Proof.
  pose proof (Mcp_save_cases u word definition w) as Hc.
  destruct (Mcp.save_definition_try u word definition w) as [[e|s1] w1].
  - rewrite Hc. intros [= <- <-]. by vm_compute.
  - rewrite Hc. by intros [= <- <-].
Qed.



(** ** Failures inside the tools *)


Lemma bind_raise {A B} (m : M A) (f : A → M B) w e w' :
  m w = (inl e, w') → (m ≫= f) w = (inl e, w').
Proof. intros H. unfold mbind, M_bind. by rewrite H. Qed.

Lemma bind_return {A B} (m : M A) (f : A → M B) w a w' :
  m w = (inr a, w') → (m ≫= f) w = f a w'.
Proof. intros H. unfold mbind, M_bind. by rewrite H. Qed.



(** ** The confirmation string *)

Lemma startswith_app (x post : pystr) : startswith (x ++ post) x = true.
Proof.
  induction x as [|a x IH]; simpl; [by destruct post|]. by rewrite N.eqb_refl.
Qed.

Lemma startswith_refl (x : pystr) : startswith x x = true.
Proof. rewrite <- (app_nil_r x) at 1. apply startswith_app. Qed.

Lemma contains_here (s x : pystr) : startswith s x = true → contains s x = true.
Proof. intros H. destruct s; simpl in *; by rewrite H. Qed.

Lemma contains_app (pre x post : pystr) : contains (pre ++ x ++ post) x = true.
Proof.
  induction pre as [|a pre IH]; simpl.
  - apply contains_here, startswith_app.
  - rewrite IH. apply orb_true_r.
Qed.

(** The top-level script's confirmation quotes the word, not the file: after
    saving "Zorgon" the file is [Zorgon.txt] and the text does not contain
    that name. *)
Lemma V7_confirmation_lacks_file_name :
  let run := V7.save_definition (lit "Zorgon") (lit "a planet") w_app in
  run.1 = inr (lit "The definition for 'Zorgon' has been found and saved. Mission Completed! Stop")
  ∧ files run.2 !! in_out_dir (lit "Zorgon.txt") = Some (lit "a planet" ++ nl)
  ∧ path_name (V7.file_path (lit "Zorgon")) = lit "Zorgon.txt"
  ∧ ∀ s, run.1 = inr s → contains s (lit "Zorgon.txt") = false.
Proof.
  split_and!; [by vm_compute..|].
  intros s. vm_compute. intros [= <-]. reflexivity.
Qed.

Lemma startswith_inv (s x : pystr) : startswith s x = true → ∃ post, s = x ++ post.
Proof.
  revert s. induction x as [|a x IH]; intros s H.
  - by exists s.
  - destruct s as [|b s]; simpl in H; [done|].
    apply andb_true_iff in H as [Hab H]. apply N.eqb_eq in Hab as ->.
    destruct (IH s H) as [post ->]. by exists post.
Qed.

Lemma contains_spec (s x : pystr) :
  contains s x = true ↔ ∃ pre post, s = pre ++ x ++ post.
Proof.
  split.
  - induction s as [|b s IH]; intros H.
    + change (startswith [] x || false = true) in H. rewrite orb_false_r in H.
      apply startswith_inv in H as [post H]. by exists [], post.
    + change (startswith (b :: s) x || contains s x = true) in H.
      apply orb_true_iff in H as [H|H].
      * apply startswith_inv in H as [post H]. by exists [], post.
      * destruct (IH H) as (pre & post & ->). by exists (b :: pre), post.
  - intros (pre & post & ->). apply contains_app.
Qed.

Lemma contains_in_app (pre t post x : pystr) :
  contains t x = true → contains (pre ++ t ++ post) x = true.
Proof.
  rewrite !contains_spec. intros (l & r & ->).
  exists (pre ++ l), (r ++ post). by rewrite <- !app_assoc.
Qed.

Lemma contains_in_suffix (pre t x : pystr) :
  contains t x = true → contains (pre ++ t) x = true.
Proof.
  intros H. rewrite <- (app_nil_r t). by apply contains_in_app.
Qed.

Lemma join_snoc (sep : pystr) (items : list pystr) (x : pystr) :
  ∃ pre, join sep (items ++ [x]) = pre ++ x.
Proof.
  induction items as [|y items [pre IH]]; simpl.
  - by exists [].
  - destruct (items ++ [x]) as [|z rest] eqn:Hz.
    + by destruct items.
    + exists (y ++ sep ++ pre). by rewrite IH, <- !app_assoc.
Qed.

(** The text of a path ends with the name of its last part. *)
Lemma path_str_name (p : PurePath) : contains (path_str p) (path_name p) = true.
Proof.
  apply contains_spec. unfold path_str, path_name.
  destruct (parts p) as [|y ps] eqn:Hp using rev_ind.
  - exists [], (match root p with 0 => [46] | r => replicate (N.to_nat r) 47 ++ [] end).
    by destruct (root p).
  - clear IHps. rewrite last_last.
    destruct (join_snoc [47] ps y) as [pre Hj].
    exists (replicate (N.to_nat (root p)) 47 ++ pre), [].
    rewrite app_nil_r, <- app_assoc, <- Hj.
    destruct (root p); [|done]. by destruct ps.
Qed.

(** C5 (as amended): after a successful save, the confirmation of the
    example script contains the name of the file it wrote (sanitized base
    plus ".txt"), the confirmation of [save_file] contains the path and the
    name of the file it wrote, and the confirmation of the top-level
    [save_definition] contains the word it was given. *)
Theorem confirmation_names (u : N → bool) (word payload : pystr)
    (w w' : world) (s : pystr) :
  (Mcp.save_definition u word payload w = (inr s, w') →
   reports_success s = true →
   contains s (path_name (Mcp.file_path u word)) = true
   ∧ files w' !! in_out_dir (path_name (Mcp.file_path u word))
     = Some (Mcp_content word payload))
  ∧ (Simple.save_file word payload w = (inr s, w') →
     contains s (path_str (Simple.file_path word)) = true
     ∧ contains s (path_name (Simple.file_path word)) = true
     ∧ files w' !! location_of (Simple.file_path word) = Some payload)
  ∧ (V7.save_definition word payload w = (inr s, w') →
     contains s word = true
     ∧ files w' !! location_of (V7.file_path word) = Some (strip payload ++ nl)).
Proof.
  split_and!.
  - intros H Hs. apply Mcp_save_success in H; [|done].
    apply Mcp_try_ok in H as [-> Hf]. rewrite Mcp_file_path_parts. cbn [path_name parts].
    unfold in_out_dir at 1 2. cbn [List.last]. split.
    + rewrite (app_assoc (lit "✅ The definition for '") word), app_assoc.
      apply contains_app.
    + rewrite Hf. apply lookup_insert_eq.
  - intros H. apply Simple_save_ok in H as [-> Hf]. split_and!.
    + apply contains_in_suffix, contains_here, startswith_refl.
    + apply contains_in_suffix, path_str_name.
    + rewrite Hf. apply lookup_insert_eq.
  - intros H. apply V7_save_ok in H as [-> Hf]. split.
    + apply contains_app.
    + rewrite Hf. apply lookup_insert_eq.
Qed.

Lemma confirmation_names_witness :
  let word := lit "Zorgon" in
  let m := Mcp.save_definition (λ _, false) word (lit "a planet") w_app in
  let s := Simple.save_file word (lit "a planet") w_app in
  let v := V7.save_definition word (lit "a planet") w_app in
  contains (lit "✅ The definition for 'Zorgon' has been found and saved to Zorgon.txt. Mission Completed!")
    (path_name (Mcp.file_path (λ _, false) word)) = true
  ∧ contains (lit "Saved to /app/definitions/Zorgon")
      (path_name (Simple.file_path word)) = true
  ∧ contains (lit "The definition for 'Zorgon' has been found and saved. Mission Completed! Stop")
      word = true.
Proof.
  intros word m s v. split_and!.
  - refine (proj1 (proj1 (confirmation_names (λ _, false) word (lit "a planet")
      w_app m.2 _) _ _)).
    + apply pair_eq_fst. vm_compute. reflexivity.
    + vm_compute. reflexivity.
  - refine (proj1 (proj2 (proj1 (proj2 (confirmation_names (λ _, false) word
      (lit "a planet") w_app s.2 _)) _))).
    apply pair_eq_fst. vm_compute. reflexivity.
  - refine (proj1 (proj2 (proj2 (confirmation_names (λ _, false) word
      (lit "a planet") w_app v.2 _)) _)).
    apply pair_eq_fst. vm_compute. reflexivity.
Defined.

(** ** Unsanitized names *)

Lemma plain_location (seg : pystr) :
  47 ∉ seg → seg ≠ [] → seg ≠ [46] → seg ≠ dotdot →
  location_of (joinpath (Path (lit "/app/definitions")) seg) = in_out_dir seg.
Proof.
  intros Hs H0 H1 H2. unfold joinpath. rewrite Path_plain by done.
  unfold location_of, in_out_dir. simpl root. simpl parts.
  change (lit "/app/definitions") with [47; 97; 112; 112; 47; 100; 101; 102; 105; 110; 105; 116; 105; 111; 110; 115].
  change (parts (Path _)) with [lit "app"; lit "definitions"].
  cbn [N.eqb app]. rewrite !lexical_cons.
  rewrite (bool_decide_eq_false_2 (lit "app" = dotdot)) by (vm_compute; discriminate).
  rewrite (bool_decide_eq_false_2 (lit "definitions" = dotdot))
    by (vm_compute; discriminate).
  by rewrite bool_decide_eq_false_2.
Qed.

Lemma notes_not_under_out_dir : ¬ under_out_dir [lit "app"; lit "notes.txt"].
Proof. intros [k Hk]. vm_compute in Hk. discriminate. Qed.

Lemma tmp_not_under_out_dir (name : pystr) : ¬ under_out_dir [lit "tmp"; name].
Proof. intros [k Hk]. vm_compute in Hk. discriminate. Qed.

(** C10: [save_file] and the top-level [save_definition] join the
    caller-supplied name to /app/definitions as it comes: a name without a
    separator names that very entry of the directory, whatever its
    characters; a name with "../" or a leading separator makes the tool
    create its file outside /app/definitions. *)
Theorem save_path_unsanitized :
  (∀ filename,
     Simple.file_path filename = joinpath (Path (lit "/app/definitions")) filename)
  ∧ (∀ word,
       V7.file_path word
       = joinpath (Path (lit "/app/definitions")) (word ++ lit ".txt"))
  ∧ (∀ name, 47 ∉ name → name ≠ [] → name ≠ [46] → name ≠ dotdot →
       location_of (Simple.file_path name) = in_out_dir name)
  ∧ (∀ word, 47 ∉ word →
       location_of (V7.file_path word) = in_out_dir (word ++ lit ".txt"))
  ∧ (let run := Simple.save_file (lit "../notes.txt") (lit "x") w_app in
     run.1 = inr (lit "Saved to /app/definitions/../notes.txt")
     ∧ map_to_list (files run.2) = [([lit "app"; lit "notes.txt"], lit "x")]
     ∧ ¬ under_out_dir [lit "app"; lit "notes.txt"])
  ∧ (let run := Simple.save_file (lit "/tmp/notes.txt") (lit "x") w_tmp in
     run.1 = inr (lit "Saved to /tmp/notes.txt")
     ∧ map_to_list (files run.2) = [([lit "tmp"; lit "notes.txt"], lit "x")]
     ∧ ¬ under_out_dir [lit "tmp"; lit "notes.txt"])
  ∧ (let run := V7.save_definition (lit "../notes") (lit "x") w_app in
     run.1 = inr (lit "The definition for '../notes' has been found and saved. Mission Completed! Stop")
     ∧ map_to_list (files run.2) = [([lit "app"; lit "notes.txt"], lit "x" ++ nl)]
     ∧ ¬ under_out_dir [lit "app"; lit "notes.txt"])
  ∧ (let run := V7.save_definition (lit "/tmp/notes") (lit "x") w_tmp in
     run.1 = inr (lit "The definition for '/tmp/notes' has been found and saved. Mission Completed! Stop")
     ∧ map_to_list (files run.2) = [([lit "tmp"; lit "notes.txt"], lit "x" ++ nl)]
     ∧ ¬ under_out_dir [lit "tmp"; lit "notes.txt"]).
Proof.
  split; [reflexivity|]. split; [reflexivity|].
  split; [intros name; apply plain_location|].
  split.
  { intros word Hw. apply plain_location.
    - intros Hin. apply elem_of_app in Hin as [Hin|Hin]; [done|].
      revert Hin. apply (bool_decide_unpack (47 ∉ lit ".txt")). by vm_compute.
    - by destruct word.
    - destruct word as [|? [|? ?]]; vm_compute; discriminate.
    - destruct word as [|? [|? [|? ?]]]; vm_compute; discriminate. }
  cbv zeta.
  split_and!;
    lazymatch goal with
    | |- ¬ under_out_dir [lit "app"; _] => apply notes_not_under_out_dir
    | |- ¬ under_out_dir [lit "tmp"; _] => apply tmp_not_under_out_dir
    | |- _ => vm_compute; reflexivity
    end.
Qed.

Lemma save_path_unsanitized_witness :
  location_of (Simple.file_path (lit "C++ notes#1")) = in_out_dir (lit "C++ notes#1")
  ∧ location_of (V7.file_path (lit "C++ & C#")) = in_out_dir (lit "C++ & C#.txt").
Proof.
  pose proof save_path_unsanitized as (_ & _ & Hs & Hv & _).
  split.
  - apply Hs; [apply (bool_decide_unpack _); by vm_compute | by vm_compute..].
  - apply (Hv (lit "C++ & C#")). apply (bool_decide_unpack _). by vm_compute.
Defined.

(** ** The scripts' runs *)

Ltac run_script :=
  unfold trace, exit_status, V7.main, Mcp.main, Mcp.main_try, Mcp.main_except,
    Simple.main, Basic.main, try_except_P, with_client, reraise, call, print,
    failing, mbind, P_bind, mret, P_ret;
  cbn [model_init client_init gateway_enter list_tools_sync agent_init
       agent_call gateway_exit fst snd app].

(** C6: when discovery returns no remote tool (and the set-up and the
    connection succeed), both gateway scripts go on to construct one agent,
    and its tool list is exactly [save_definition]; when the constructor
    returns, the agent is invoked with the question. *)
Theorem empty_gateway_tools (env : environ) (ext : externals) :
  model_init ext = None → client_init ext = None → gateway_enter ext = None →
  list_tools_sync ext = inr [] →
  agent_tools <$> agent_inits (trace (V7.main env ext)) = [[save_definition_tool]]
  ∧ agent_tools <$> agent_inits (trace (Mcp.main env ext)) = [[save_definition_tool]]
  ∧ (agent_init ext = None →
     questions_asked (trace (V7.main env ext)) = [V7.QUESTION env]
     ∧ questions_asked (trace (Mcp.main env ext)) = [Mcp.QUESTION env]).
Proof.
  destruct ext as [mi ci ge lt ai ac gx]. simpl.
  intros -> -> -> ->.
  split_and!.
  - destruct ai, ac, gx; run_script; reflexivity.
  - destruct ai, ac, gx; run_script; reflexivity.
  - intros ->. destruct ac, gx; run_script; split; reflexivity.
Qed.

Lemma empty_gateway_tools_witness :
  agent_tools <$> agent_inits (trace (V7.main ∅ ext_no_tools))
  = [[save_definition_tool]]
  ∧ agent_tools <$> agent_inits (trace (Mcp.main ∅ ext_no_tools))
    = [[save_definition_tool]].
Proof.
  pose proof (empty_gateway_tools ∅ ext_no_tools eq_refl eq_refl eq_refl eq_refl)
    as (Hv & Hm & _).
  by split.
Defined.

(** Case analysis on the outcomes a run meets, in the order of the calls: a
    gateway script stops at the first failing set-up call; a script without
    gateway only depends on the model, the constructor and the invocation. *)
Ltac gateway_runs ext tac :=
  destruct ext as [mi ci ge lt ai ac gx];
  destruct mi as [?|]; [tac|];
  destruct ci as [?|]; [tac|];
  destruct ge as [?|]; [tac|];
  destruct lt as [?|?], ai as [?|], ac as [?|?], gx as [?|]; tac.

Ltac plain_runs ext tac :=
  destruct ext as [mi ci ge lt ai ac gx];
  destruct mi as [?|], ai as [?|], ac as [?|?]; tac.

Ltac find_or := first [ reflexivity | left; reflexivity | right; find_or ].

Ltac find_raised :=
  let H := fresh in intros H; injection H as <-; unfold raised_by; cbn; find_or.

Ltac find_suffix :=
  match goal with
  | |- ?s `suffix_of` ?l =>
      exists (take (length l - length s)%nat l); reflexivity
  end.

(** C7: in both gateway scripts, for every outcome of the external calls,
    the run follows the gateway protocol (the connection is acquired at most
    once, after the set-up; discovery is the next call after acquisition,
    only a progress line may be printed between them, and it happens once;
    the agent is built and invoked while the connection is open) and ends
    with the connection released: every acquisition is matched by a release,
    whether [main] returns or an exception escapes. *)
Theorem gateway_scoped (env : environ) (ext : externals) :
  scoped (trace (V7.main env ext)) = true
  ∧ scoped (trace (Mcp.main env ext)) = true
  ∧ count is_release (trace (V7.main env ext))
    = count is_acquire (trace (V7.main env ext))
  ∧ count is_release (trace (Mcp.main env ext))
    = count is_acquire (trace (Mcp.main env ext))
  ∧ count is_acquire (trace (V7.main env ext))
    = (if ok (model_init ext) && ok (client_init ext) && ok (gateway_enter ext)
       then 1 else 0)%nat
  ∧ count is_acquire (trace (Mcp.main env ext))
    = (if ok (model_init ext) && ok (client_init ext) && ok (gateway_enter ext)
       then 1 else 0)%nat
  ∧ count is_list_tools (trace (V7.main env ext))
    = count is_acquire (trace (V7.main env ext))
  ∧ count is_list_tools (trace (Mcp.main env ext))
    = count is_acquire (trace (Mcp.main env ext)).
Proof.
  gateway_runs ext ltac:(run_script; split_and!; reflexivity).
Qed.

(** ** Failures outside the tools *)

(** The basic script catches a failure of the invocation: [main] returns
    and the exit status is zero. *)
Lemma Basic_swallows_invocation_failure :
  agent_call ext_call_fails = inl refused
  ∧ (Basic.main ∅ ext_call_fails).2 = inr ()
  ∧ exit_status (Basic.main ∅ ext_call_fails) = 0.
Proof. by split_and!. Qed.

(** C8 (as amended): in the two gateway scripts and in [simple_agent.py], a
    failure of any external call (model set-up, gateway client, connection,
    discovery, agent construction, invocation, release) reaches the top
    level and the exit status is one; the exception is one that a call
    raised, and the example script prints its hint list last. The exit
    status is zero exactly when every call succeeds. The basic script lets
    failures of the model and agent construction through in the same way,
    but catches a failure of the invocation, prints it and returns with
    status zero. *)
Theorem failures_propagate (env : environ) (ext : externals) :
  exit_status (V7.main env ext) = (if gateway_run_ok ext then 0 else 1)
  ∧ (∀ e, (V7.main env ext).2 = inl e → raised_by ext e)
  ∧ exit_status (Mcp.main env ext) = (if gateway_run_ok ext then 0 else 1)
  ∧ (∀ e, (Mcp.main env ext).2 = inl e →
       raised_by ext e
       ∧ trace (Mcp.main_except e) `suffix_of` trace (Mcp.main env ext))
  ∧ exit_status (Simple.main env ext) = (if plain_run_ok ext then 0 else 1)
  ∧ (∀ e, (Simple.main env ext).2 = inl e → raised_by ext e)
  ∧ exit_status (Basic.main env ext)
    = (if ok (model_init ext) && ok (agent_init ext) then 0 else 1)
  ∧ (∀ e, (Basic.main env ext).2 = inl e →
       model_init ext = Some e ∨ agent_init ext = Some e)
  ∧ (∀ e, model_init ext = None → agent_init ext = None →
       agent_call ext = inl e →
       (Basic.main env ext).2 = inr ()
       ∧ List.last (trace (Basic.main env ext)) (Print [])
         = Print (lit "❌ Error: " ++ exn_str e)).
Proof.
  split_and!.
  - gateway_runs ext ltac:(run_script; reflexivity).
  - intros e0. gateway_runs ext ltac:(run_script; first [done | find_raised]).
  - gateway_runs ext ltac:(run_script; reflexivity).
  - intros e0.
    gateway_runs ext ltac:(run_script; first [done |
      let H := fresh in intros H; injection H as <-;
      split; [unfold raised_by; cbn; find_or | find_suffix] ]).
  - plain_runs ext ltac:(run_script; reflexivity).
  - intros e0. plain_runs ext ltac:(run_script; first [done | find_raised]).
  - plain_runs ext ltac:(run_script; reflexivity).
  - intros e0.
    plain_runs ext ltac:(run_script; first [done |
      let H := fresh in intros H; injection H as <-; cbn; find_or ]).
  - intros e0. destruct ext as [mi ci ge lt ai ac gx]. simpl. intros -> -> ->.
    run_script. split; reflexivity.
Qed.

Lemma failures_propagate_witness :
  (raised_by ext_call_fails refused
   ∧ trace (Mcp.main_except refused) `suffix_of` trace (Mcp.main ∅ ext_call_fails))
  ∧ raised_by ext_call_fails refused
  ∧ (Basic.main ∅ ext_call_fails).2 = inr ()
  ∧ List.last (trace (Basic.main ∅ ext_call_fails)) (Print [])
    = Print (lit "❌ Error: " ++ exn_str refused).
Proof.
  pose proof (failures_propagate ∅ ext_call_fails)
    as (_ & Hv & _ & Hm & _ & _ & _ & _ & Hb).
  split; [apply Hm; reflexivity|].
  split; [apply Hv; reflexivity|].
  apply (Hb refused); reflexivity.
Defined.

(** * Further properties of the scripts *)

(** ** Whitespace and sanitization *)

Lemma isspace_nl : isspace 10 = true.
Proof. reflexivity. Qed.

Lemma lstrip_spaces (l s : pystr) :
  Forall (λ c, isspace c = true) l → lstrip (l ++ s) = lstrip s.
Proof. induction 1 as [|c l Hc _ IH]; simpl; [done|]. by rewrite Hc. Qed.

Lemma lstrip_all_spaces (l : pystr) :
  Forall (λ c, isspace c = true) l → lstrip l = [].
Proof. intros H. rewrite <- (app_nil_r l). by rewrite lstrip_spaces. Qed.

Lemma lstrip_app (s r : pystr) :
  lstrip (s ++ r) = if bool_decide (lstrip s = []) then lstrip r else lstrip s ++ r.
Proof.
  induction s as [|c s IH]; simpl; [done|].
  destruct (isspace c); [done|]. by rewrite bool_decide_eq_false_2.
Qed.

Lemma rstrip_spaces (s r : pystr) :
  Forall (λ c, isspace c = true) r → rstrip (s ++ r) = rstrip s.
Proof.
  intros Hr. unfold rstrip. rewrite rev_app_distr, lstrip_spaces; [done|].
  by apply Forall_rev.
Qed.

Lemma rstrip_nil : rstrip [] = [].
Proof. reflexivity. Qed.

Lemma strip_spaces (l s r : pystr) :
  Forall (λ c, isspace c = true) l → Forall (λ c, isspace c = true) r →
  strip (l ++ s ++ r) = strip s.
Proof.
  intros Hl Hr. unfold strip. rewrite lstrip_spaces by done.
  rewrite lstrip_app. case_bool_decide as Hs.
  - by rewrite Hs, lstrip_all_spaces.
  - by rewrite rstrip_spaces.
Qed.

Lemma lstrip_fixed (s : pystr) :
  (∀ c rest, s = c :: rest → isspace c = false) → lstrip s = s.
Proof.
  destruct s as [|c s]; [done|]. intros H. simpl. by rewrite (H c s).
Qed.

Lemma strip_fixed (s : pystr) :
  (∀ c rest, s = c :: rest → isspace c = false) →
  (∀ c init, s = init ++ [c] → isspace c = false) →
  strip s = s.
Proof.
  intros Hh Hl. unfold strip, rstrip. rewrite (lstrip_fixed s) by done.
  rewrite lstrip_fixed; [apply rev_involutive|].
  intros c rest Hr. apply (Hl c (rev rest)).
  by rewrite <- (rev_involutive s), Hr.
Qed.

Lemma strip_idempotent (s : pystr) : strip (strip s) = strip s.
Proof.
  apply strip_fixed; [apply strip_head | apply strip_last].
Qed.

Lemma filter_all_kept (p : N → bool) (s : pystr) :
  (∀ c, c ∈ s → p c = true) → List.filter p s = s.
Proof.
  induction s as [|c s IH]; simpl; [done|]. intros H.
  rewrite (H c) by apply list_elem_of_here. f_equal. apply IH.
  intros c' Hc'. apply H. by apply list_elem_of_further.
Qed.

(** X2: sanitizing a name that is already sanitized changes nothing, so a
    word and its sanitized form are saved to the same file. *)
Theorem safe_word_idempotent (u : N → bool) (word : pystr) :
  Mcp.safe_word u (Mcp.safe_word u word) = Mcp.safe_word u word
  ∧ Mcp.file_path u (Mcp.safe_word u word) = Mcp.file_path u word.
Proof.
  assert (Mcp.safe_word u (Mcp.safe_word u word) = Mcp.safe_word u word) as H.
  { unfold Mcp.safe_word at 1. rewrite filter_all_kept.
    - apply strip_idempotent.
    - intros c. apply safe_word_keep. }
  split; [done|]. unfold Mcp.file_path. by rewrite H.
Qed.

(** X3: a word none of whose characters survives (empty, or made of
    punctuation and whitespace only) has the empty base: the example script
    saves it as /app/definitions/.txt. *)
Theorem unsafe_word_names_dot_txt (u : N → bool) (word : pystr) :
  (∀ c, c ∈ word → Mcp.keep u c = true → isspace c = true) →
  Mcp.safe_word u word = []
  ∧ path_str (Mcp.file_path u word) = lit "/app/definitions/.txt".
Proof.
  intros H.
  assert (Mcp.safe_word u word = []) as Hs.
  { unfold Mcp.safe_word, strip. rewrite lstrip_all_spaces; [done|].
    apply Forall_forall. intros c Hc.
    apply list_elem_of_In, filter_In in Hc as [Hc Hk].
    apply H; [by apply list_elem_of_In|done]. }
  split; [done|].
  rewrite Mcp_file_path_parts, Hs. reflexivity.
Qed.

Lemma unsafe_word_names_dot_txt_witness :
  Mcp.safe_word (λ _, false) (lit " +/# ") = []
  ∧ path_str (Mcp.file_path (λ _, false) (lit " +/# ")) = lit "/app/definitions/.txt".
Proof.
  apply unsafe_word_names_dot_txt.
  intros c Hc Hk.
  assert (Forall (λ c, Mcp.keep (λ _, false) c = true → isspace c = true) (lit " +/# ")) as HF.
  { vm_compute. repeat constructor; discriminate. }
  rewrite Forall_forall in HF. by apply HF.
Defined.

(** X4: whitespace around the definition does not matter to either
    [save_definition]: the call behaves as for the bare definition; and what
    the top-level tool writes is a fixed point, saving a file's own content
    again writes the same content. *)
Theorem definition_whitespace_ignored (u : N → bool) (word d l r : pystr) (w : world) :
  Forall (λ c, isspace c = true) l → Forall (λ c, isspace c = true) r →
  V7.save_definition word (l ++ d ++ r) w = V7.save_definition word d w
  ∧ Mcp.save_definition u word (l ++ d ++ r) w = Mcp.save_definition u word d w
  ∧ V7_content (V7_content d) = V7_content d.
Proof.
  intros Hl Hr. pose proof (strip_spaces l d r Hl Hr) as Hs.
  split_and!.
  - unfold V7.save_definition. by rewrite Hs.
  - unfold Mcp.save_definition, Mcp.save_definition_try. by rewrite Hs.
  - unfold V7_content. f_equal.
    change (strip (strip d ++ nl)) with (strip ([] ++ strip d ++ nl)).
    rewrite strip_spaces; [apply strip_idempotent|done|].
    repeat constructor.
Qed.

Lemma definition_whitespace_ignored_witness :
  V7.save_definition (lit "Zorgon") (lit "  " ++ lit "a planet" ++ nl) w_app
  = V7.save_definition (lit "Zorgon") (lit "a planet") w_app.
Proof.
  refine (proj1 (definition_whitespace_ignored (λ _, false) (lit "Zorgon")
    (lit "a planet") (lit "  ") nl w_app _ _)); vm_compute; repeat constructor.
Defined.

(** X1: the mock search result contains the query as it was given, and two
    queries get the same result only when they are the same query. *)
Theorem simple_search_embeds_query (q1 q2 : pystr) :
  contains (Simple.simple_search q1) q1 = true
  ∧ (Simple.simple_search q1 = Simple.simple_search q2 ↔ q1 = q2).
Proof.
  split_and!.
  - apply contains_app.
  - split; [|by intros ->].
    unfold Simple.simple_search. intros H.
    apply app_inv_head in H. by apply app_inv_tail in H.
Qed.

(** ** What a save can touch *)

Lemma upd_other (l l' : location) (w w' : world) :
  upd l w w' → l' ≠ l → files w' !! l' = files w !! l'.
Proof.
  intros [H|[d H]] Hne; rewrite H; [done|]. by rewrite lookup_insert_ne.
Qed.

Lemma in_out_dir_under (name : pystr) : under_out_dir (in_out_dir name).
Proof. by exists [name]. Qed.

(** X5: on a file system without symbolic or hard links (the file systems
    of the model), whatever the word, the definition and the outcome, the
    example script's [save_definition] leaves every file other than
    /app/definitions/<base>.txt as it was; in particular no file outside
    /app/definitions changes. *)
Theorem save_definition_confined (u : N → bool) (word definition : pystr)
    (w w' : world) (r : exn + pystr) (l : location) :
  Mcp.save_definition u word definition w = (r, w') →
  (l ≠ in_out_dir (Mcp.safe_word u word ++ lit ".txt") →
   files w' !! l = files w !! l)
  ∧ (¬ under_out_dir l → files w' !! l = files w !! l).
Proof.
  intros H. apply Mcp_save_upd in H. split.
  - intros Hl. by eapply upd_other.
  - intros Hl. eapply upd_other; [exact H|].
    intros ->. apply Hl, in_out_dir_under.
Qed.

Lemma save_definition_confined_witness :
  let run := Mcp.save_definition (λ _, false) (lit "../../etc/passwd")
               (lit "x") w_tmp in
  files run.2 !! [lit "etc"; lit "passwd.txt"]
  = files w_tmp !! [lit "etc"; lit "passwd.txt"].
Proof.
  intros run.
  refine (proj1 (save_definition_confined (λ _, false) (lit "../../etc/passwd")
    (lit "x") w_tmp run.2 run.1 [lit "etc"; lit "passwd.txt"] _) _).
  - apply surjective_pairing.
  - vm_compute. discriminate.
Defined.

(** X6: on a file system without symbolic or hard links (the file systems
    of the model), for a name without a slash, the top-level
    [save_definition] changes no file other than
    /app/definitions/<word>.txt, and [save_file] (given a name that is not
    empty, "." or "..") no file other than /app/definitions/<name>, whatever
    the outcome. *)
Theorem plain_names_confined (name payload : pystr) (w w' : world)
    (r : exn + pystr) (l : location) :
  47 ∉ name →
  (V7.save_definition name payload w = (r, w') →
   l ≠ in_out_dir (name ++ lit ".txt") → files w' !! l = files w !! l)
  ∧ (name ≠ [] → name ≠ [46] → name ≠ dotdot →
     Simple.save_file name payload w = (r, w') →
     l ≠ in_out_dir name → files w' !! l = files w !! l).
Proof.
  intros Hn. split.
  - intros H Hl. apply V7_save_upd in H.
    eapply upd_other; [exact H|].
    unfold V7.file_path, V7.out_dir. rewrite plain_location; [done| | | |].
    + intros Hin. apply elem_of_app in Hin as [Hin|Hin]; [done|].
      revert Hin. apply (bool_decide_unpack (47 ∉ lit ".txt")). by vm_compute.
    + by destruct name.
    + destruct name as [|? [|? ?]]; vm_compute; discriminate.
    + destruct name as [|? [|? [|? ?]]]; vm_compute; discriminate.
  - intros H0 H1 H2 H Hl. apply Simple_save_upd in H.
    eapply upd_other; [exact H|].
    unfold Simple.file_path, Simple.out_dir. by rewrite plain_location.
Qed.

Lemma plain_names_confined_witness :
  let v := V7.save_definition (lit "C++") (lit "x") w_tmp in
  let s := Simple.save_file (lit "C++") (lit "x") w_tmp in
  files v.2 !! [lit "tmp"; lit "C++"] = files w_tmp !! [lit "tmp"; lit "C++"]
  ∧ files s.2 !! [lit "tmp"; lit "C++"] = files w_tmp !! [lit "tmp"; lit "C++"].
Proof.
  intros v s.
  assert (47 ∉ lit "C++") as Hn by (apply (bool_decide_unpack _); by vm_compute).
  split.
  - refine (proj1 (plain_names_confined (lit "C++") (lit "x") w_tmp v.2 v.1
      [lit "tmp"; lit "C++"] Hn) _ _).
    + apply surjective_pairing.
    + vm_compute. discriminate.
  - refine (proj2 (plain_names_confined (lit "C++") (lit "x") w_tmp s.2 s.1
      [lit "tmp"; lit "C++"] Hn) _ _ _ _ _).
    + vm_compute. discriminate.
    + vm_compute. discriminate.
    + vm_compute. discriminate.
    + apply surjective_pairing.
    + vm_compute. discriminate.
Defined.

(** X7: two words with the same sanitized base are saved under one and the
    same path: after saving the first and then, successfully, the second,
    the file at that path holds exactly what was written for the second
    word, nothing of the first. *)
Theorem same_base_same_file (u : N → bool) (word1 word2 d1 d2 : pystr)
    (w0 w1 w2 : world) (r1 : exn + pystr) (s2 : pystr) :
  Mcp.safe_word u word1 = Mcp.safe_word u word2 →
  Mcp.save_definition u word1 d1 w0 = (r1, w1) →
  Mcp.save_definition u word2 d2 w1 = (inr s2, w2) →
  reports_success s2 = true →
  Mcp.file_path u word1 = Mcp.file_path u word2
  ∧ files w2 !! in_out_dir (Mcp.safe_word u word1 ++ lit ".txt")
    = Some (Mcp_content word2 d2).
Proof.
  intros Hb _ H2 Hs. split.
  - unfold Mcp.file_path. by rewrite Hb.
  - apply Mcp_save_success in H2; [|done]. apply Mcp_try_ok in H2 as [_ H2].
    rewrite Hb, H2. apply lookup_insert_eq.
Qed.

Lemma same_base_same_file_witness :
  let u := λ _ : N, false in
  let m1 := Mcp.save_definition u (lit "C++") (lit "first") w_app in
  let m2 := Mcp.save_definition u (lit "C#") (lit "second") m1.2 in
  files m2.2 !! in_out_dir (Mcp.safe_word u (lit "C++") ++ lit ".txt")
  = Some (Mcp_content (lit "C#") (lit "second")).
Proof.
  intros u m1 m2.
  refine (proj2 (same_base_same_file u (lit "C++") (lit "C#") (lit "first")
    (lit "second") w_app m1.2 m2.2 m1.1
    (lit "✅ The definition for 'C#' has been found and saved to C.txt. Mission Completed!")
    _ _ _ _)).
  - vm_compute. reflexivity.
  - apply surjective_pairing.
  - apply pair_eq_fst. vm_compute. reflexivity.
  - vm_compute. reflexivity.
Defined.

(** ** Interrupted saves *)

Lemma write_wrote (f : location) (s d : pystr) (base : gmap location pystr)
    (w w' : world) (r : exn + unit) :
  wrote f d base w → write f s w = (r, w') →
  match r with
  | inl _ => wrote f d base w'
  | inr _ => wrote f (d ++ s) base w'
  end.
Proof.
  intros [Hh Hf] H. destruct r as [e|[]].
  - apply bind_inv in H as [(e' & H & _)|([] & w1 & _ & H)]; [|done].
    pose proof (syscall_files _ _ _ H) as Hfs.
    apply syscall_nodes in H as [Hn _].
    split; [unfold holds; by rewrite Hn | by rewrite Hfs].
  - apply (write_ok _ _ _ _ _ Hh) in H as [Hh' Hf'].
    split; [done|]. rewrite Hf', Hf. apply insert_insert_eq.
Qed.

Lemma with_open_w_prefix {A} (p : PurePath) (body : location → M A)
    (content : pystr) (w w' : world) (r : exn + A) :
  root p ≠ 0 →
  (∀ f base w1 rb w2, wrote f [] base w1 → body f w1 = (rb, w2) →
     ∃ d, d `prefix_of` content ∧ files w2 = <[f := d]> base) →
  with_open_w p body w = (r, w') →
  files w' = files w
  ∨ ∃ d, d `prefix_of` content ∧ files w' = <[location_of p := d]> (files w).
Proof.
  intros Hr Hbody H.
  apply with_open_w_inv in H
    as [(e & H & _)|(f & w1 & rb & w2 & Ho & Hb & Hc)].
  - left. by apply open_w_error in H.
  - right. apply open_w_ok in Ho as (-> & Hh & Hf); [|done].
    destruct (Hbody _ (files w) _ _ _ (conj Hh Hf) Hb) as (d & Hd & Hw2).
    exists d. split; [done|]. rewrite <- Hw2.
    destruct Hc as [(e & Hc & _)|[Hc _]]; by apply close_files in Hc.
Qed.

Lemma one_write_prefix (f : location) (s : pystr) (base : gmap location pystr)
    (w1 w2 : world) (rb : exn + unit) :
  wrote f [] base w1 → write f s w1 = (rb, w2) →
  ∃ d, d `prefix_of` s ∧ files w2 = <[f := d]> base.
Proof.
  intros Hw H. pose proof (write_wrote _ _ _ _ _ _ _ Hw H) as Hr.
  destruct rb; destruct Hr as [_ Hf].
  - exists []. split; [apply prefix_nil|done].
  - by exists s.
Qed.

Lemma Mcp_body_prefix (word definition : pystr) (f : location)
    (base : gmap location pystr) (w1 w2 : world) (rb : exn + unit) :
  wrote f [] base w1 →
  (write f (lit "Definition of '" ++ word ++ lit "':" ++ nl);;
   write f (replicate (length word + 15) 61 ++ nl ++ nl);;
   write f (strip definition ++ nl)) w1 = (rb, w2) →
  ∃ d, d `prefix_of` Mcp_content word definition ∧ files w2 = <[f := d]> base.
Proof.
  intros Hw H. unfold Mcp_content.
  set (a := lit "Definition of '" ++ word ++ lit "':" ++ nl) in *.
  set (b := replicate (length word + 15) 61 ++ nl ++ nl) in *.
  set (c := strip definition ++ nl) in *.
  apply bind_inv in H as [(e & H & _)|([] & wa & Ha & H)].
  { apply (write_wrote _ _ _ _ _ _ _ Hw) in H as [_ Hf].
    exists []. split; [apply prefix_nil|done]. }
  apply (write_wrote _ _ _ _ _ _ _ Hw) in Ha. simpl in Ha.
  apply bind_inv in H as [(e & H & _)|([] & wb & Hb & H)].
  { apply (write_wrote _ _ _ _ _ _ _ Ha) in H as [_ Hf].
    exists a. split; [by apply prefix_app_r|done]. }
  apply (write_wrote _ _ _ _ _ _ _ Ha) in Hb. simpl in Hb.
  apply (write_wrote _ _ _ _ _ _ _ Hb) in H.
  destruct rb; destruct H as [_ Hf].
  - exists (a ++ b). split; [|done]. rewrite app_assoc. by apply prefix_app_r.
  - exists ((a ++ b) ++ c). split; [|done]. by rewrite <- app_assoc.
Qed.

Lemma tool_prefix {A} (p : PurePath) (body : location → M unit) (msg : A)
    (content : pystr) (w w' : world) (r : exn + A) :
  root p ≠ 0 →
  (∀ f base w1 rb w2, wrote f [] base w1 → body f w1 = (rb, w2) →
     ∃ d, d `prefix_of` content ∧ files w2 = <[f := d]> base) →
  (mkdir (Path (lit "/app/definitions")) true;; with_open_w p body;; mret msg) w
  = (r, w') →
  files w' = files w
  ∨ ∃ d, d `prefix_of` content ∧ files w' = <[location_of p := d]> (files w).
Proof.
  intros Hr Hbody H.
  apply bind_inv in H as [(e & H & _)|([] & w1 & Hm & H)].
  { left. by apply mkdir_files in H. }
  apply mkdir_files in Hm. rewrite <- Hm.
  apply bind_inv in H as [(e & H & _)|([] & w2 & Ho & H)].
  - by eapply with_open_w_prefix.
  - inversion H; subst. by eapply with_open_w_prefix.
Qed.

(** X8: however a save ends (also when a write or the close fails), the
    files are either untouched or the target file holds an initial part of
    the new text: once the file is opened nothing of its old content is
    left, and old and new text are never mixed. *)
Theorem save_leaves_prefix (u : N → bool) (word payload : pystr)
    (w w' : world) (r : exn + pystr) :
  (Mcp.save_definition u word payload w = (r, w') →
   files w' = files w
   ∨ ∃ d, d `prefix_of` Mcp_content word payload
          ∧ files w' = <[in_out_dir (Mcp.safe_word u word ++ lit ".txt") := d]>
                         (files w))
  ∧ (V7.save_definition word payload w = (r, w') →
     files w' = files w
     ∨ ∃ d, d `prefix_of` V7_content payload
            ∧ files w' = <[location_of (V7.file_path word) := d]> (files w))
  ∧ (Simple.save_file word payload w = (r, w') →
     files w' = files w
     ∨ ∃ d, d `prefix_of` payload
            ∧ files w' = <[location_of (Simple.file_path word) := d]> (files w)).
Proof.
  split_and!.
  - intros H. rewrite <- Mcp_location.
    pose proof (Mcp_save_cases u word payload w) as Hc.
    destruct (Mcp.save_definition_try u word payload w) as [[e|s] w1] eqn:Ht;
      rewrite Hc in H; injection H as <- <-.
    + eapply tool_prefix; [apply Mcp_file_path_rooted| |exact Ht].
      intros ?????. apply Mcp_body_prefix.
    + eapply tool_prefix; [apply Mcp_file_path_rooted| |exact Ht].
      intros ?????. apply Mcp_body_prefix.
  - intros H. eapply tool_prefix; [apply V7_file_path_rooted| |exact H].
    intros ?????. apply one_write_prefix.
  - intros H. eapply tool_prefix; [apply Simple_file_path_rooted| |exact H].
    intros ?????. apply one_write_prefix.
Qed.

Lemma save_leaves_prefix_witness :
  let w := {| nodes := {[ [lit "app"] := Dir;
                          [lit "app"; lit "definitions"] := Dir;
                          [lit "app"; lit "definitions"; lit "Zorgon.txt"]
                            := File (lit "old text") ]};
              cwd := [lit "app"];
              faults := [None; None; None; Some erofs] |} in
  let run := Mcp.save_definition (λ _, false) (lit "Zorgon") (lit "a planet") w in
  files run.2 = files w
  ∨ ∃ d, d `prefix_of` Mcp_content (lit "Zorgon") (lit "a planet")
         ∧ files run.2
           = <[in_out_dir (Mcp.safe_word (λ _, false) (lit "Zorgon") ++ lit ".txt")
               := d]> (files w).
Proof.
  intros w run.
  refine (proj1 (save_leaves_prefix (λ _, false) (lit "Zorgon") (lit "a planet")
    w run.2 run.1) _).
  apply surjective_pairing.
Defined.

(** ** Edge cases of the directory and the name *)

Lemma mkdir_ok_is_dir (p : PurePath) (w w1 : world) :
  root p ≠ 0 → mkdir p true w = (inr (), w1) →
  is_dir (nodes w1) (location_of p) = true.
Proof.
  intros Hr H. apply bind_inv in H as [(e & _ & ?)|([] & w0 & Hs & H)]; [done|].
  destruct (resolve w0 p) as [e|l] eqn:Hres; [by inversion H|].
  apply resolve_lexical in Hres as ->; [|done].
  destruct (is_dir (nodes w0) (location_of p)) eqn:Hd.
  - by inversion H; subst.
  - destruct (nodes w0 !! location_of p) eqn:Hl; inversion H; subst.
    simpl. unfold is_dir. destruct (location_of p); [done|].
    by rewrite lookup_insert_eq.
Qed.

Lemma open_w_on_dir (p : PurePath) (w w' : world) (r : exn + location) :
  root p ≠ 0 → is_dir (nodes w) (location_of p) = true →
  open_w p w = (r, w') → (∃ e, r = inl e) ∧ files w' = files w.
Proof.
  intros Hr Hd H. apply bind_inv in H as [(e & H & ->)|([] & w0 & Hs & H)].
  - split; [eauto|]. by apply syscall_files in H.
  - pose proof (syscall_files _ _ _ Hs) as Hf.
    apply syscall_nodes in Hs as [Hn _]. rewrite <- Hn in Hd.
    destruct (resolve w0 p) as [e|l] eqn:Hres.
    + inversion H; subst. eauto.
    + apply resolve_lexical in Hres as ->; [|done].
      rewrite Hd in H. inversion H; subst. eauto.
Qed.

(** X9: [save_file] with an empty name (or ".") never writes: the path is
    the output directory itself, the call raises and the files are as
    before. *)
Theorem save_file_needs_a_name (filename content : pystr) (w w' : world)
    (r : exn + pystr) :
  filename = [] ∨ filename = [46] →
  Simple.save_file filename content w = (r, w') →
  (∃ e, r = inl e) ∧ files w' = files w.
Proof.
  intros Hn H.
  assert (Simple.file_path filename = Simple.out_dir) as Hp
    by (destruct Hn as [-> | ->]; reflexivity).
  unfold Simple.save_file in H. rewrite Hp in H.
  apply bind_inv in H as [(e & H & ->)|([] & w1 & Hm & H)].
  { split; [eauto|]. by apply mkdir_files in H. }
  pose proof (mkdir_files _ _ _ _ _ Hm) as Hf.
  apply mkdir_ok_is_dir in Hm; [|apply out_dir_rooted].
  apply bind_inv in H as [(e & H & ->)|([] & w2 & Ho & H)].
  - apply with_open_w_inv in H
      as [(e' & H & _)|(f & wa & rb & wb & Ho & _)].
    + split; [eauto|]. rewrite <- Hf.
      by apply (open_w_on_dir _ _ _ _ out_dir_rooted Hm) in H as [_ H].
    + by apply (open_w_on_dir _ _ _ _ out_dir_rooted Hm) in Ho as [[? ?] _].
  - apply with_open_w_inv in Ho
      as [(e' & _ & ?)|(f & wa & rb & wb & Ho & _)]; [done|].
    by apply (open_w_on_dir _ _ _ _ out_dir_rooted Hm) in Ho as [[? ?] _].
Qed.

Lemma save_file_needs_a_name_witness :
  (Simple.save_file [] (lit "x") w_app).1
  = inl (os_error IsADirectoryError (lit "[Errno 21] Is a directory")
           (Path (lit "/app/definitions")))
  ∧ files (Simple.save_file [] (lit "x") w_app).2 = files w_app.
Proof.
  destruct (save_file_needs_a_name [] (lit "x") w_app
    (Simple.save_file [] (lit "x") w_app).2
    (Simple.save_file [] (lit "x") w_app).1 (or_introl eq_refl)
    (surjective_pairing _)) as [_ Hf].
  split; [vm_compute; reflexivity | exact Hf].
Defined.

Lemma syscall_quiet (w : world) : faults w = [] → syscall w = (inr (), w).
Proof. intros H. unfold syscall. by rewrite H. Qed.

Lemma mkdir_no_parent (w : world) :
  faults w = [] → nodes w !! [lit "app"] = None →
  mkdir (Path (lit "/app/definitions")) true w = (inl enoent, w).
Proof.
  intros Hq Hn. unfold mkdir.
  rewrite (bind_return _ _ _ _ _ (syscall_quiet w Hq)).
  unfold resolve.
  change (parts (Path (lit "/app/definitions"))) with [lit "app"; lit "definitions"].
  change (root (Path (lit "/app/definitions")) =? 0) with false.
  cbn [walk is_dir]. rewrite (bool_decide_eq_false_2 (lit "app" = dotdot))
    by (vm_compute; discriminate).
  change ([] ++ [lit "app"]) with [lit "app"].
  unfold is_dir. rewrite Hn. reflexivity.
Qed.

Lemma mkdir_blocked (w : world) (x : pystr) :
  faults w = [] → nodes w !! [lit "app"] = Some Dir →
  nodes w !! [lit "app"; lit "definitions"] = Some (File x) →
  mkdir (Path (lit "/app/definitions")) true w = (inl eexist, w).
Proof.
  intros Hq Hn Hx. unfold mkdir.
  rewrite (bind_return _ _ _ _ _ (syscall_quiet w Hq)).
  unfold resolve.
  change (parts (Path (lit "/app/definitions"))) with [lit "app"; lit "definitions"].
  change (root (Path (lit "/app/definitions")) =? 0) with false.
  cbn [walk is_dir]. rewrite (bool_decide_eq_false_2 (lit "app" = dotdot))
    by (vm_compute; discriminate).
  change ([] ++ [lit "app"]) with [lit "app"].
  unfold is_dir at 1. rewrite Hn.
  rewrite (bool_decide_eq_false_2 (lit "definitions" = dotdot))
    by (vm_compute; discriminate).
  change ([lit "app"] ++ [lit "definitions"]) with [lit "app"; lit "definitions"].
  unfold is_dir. rewrite Hx. reflexivity.
Qed.

Lemma tools_stop_at_mkdir (u : N → bool) (word payload : pystr) (w : world)
    (e : exn) :
  mkdir (Path (lit "/app/definitions")) true w = (inl e, w) →
  V7.save_definition word payload w = (inl e, w)
  ∧ Simple.save_file word payload w = (inl e, w)
  ∧ Mcp.save_definition u word payload w
    = (inr (lit "❌ Error saving definition for '" ++ word ++ lit "': "
            ++ exn_str e), w).
Proof.
  intros H. split_and!.
  - unfold V7.save_definition. by apply bind_raise.
  - unfold Simple.save_file. by apply bind_raise.
  - pose proof (Mcp_save_cases u word payload w) as Hc.
    assert (Mcp.save_definition_try u word payload w = (inl e, w)) as Ht
      by (unfold Mcp.save_definition_try; by apply bind_raise).
    by rewrite Ht in Hc.
Qed.

(** X10: the output directory is created without its parents: when /app
    does not exist, the top-level tools raise [FileNotFoundError] and the
    example script returns the error line, and nothing changes. *)
Theorem save_needs_app_directory (u : N → bool) (word payload : pystr) (w : world) :
  faults w = [] → nodes w !! [lit "app"] = None →
  V7.save_definition word payload w = (inl enoent, w)
  ∧ Simple.save_file word payload w = (inl enoent, w)
  ∧ Mcp.save_definition u word payload w
    = (inr (lit "❌ Error saving definition for '" ++ word ++ lit "': "
            ++ lit "[Errno 2] No such file or directory: '/app/definitions'"), w).
Proof.
  intros Hq Hn. apply (tools_stop_at_mkdir u word payload w enoent).
  by apply mkdir_no_parent.
Qed.

Lemma save_needs_app_directory_witness :
  V7.save_definition (lit "Zorgon") (lit "a planet") w_bare = (inl enoent, w_bare).
Proof.
  apply (save_needs_app_directory (λ _, false) (lit "Zorgon") (lit "a planet") w_bare);
    reflexivity.
Defined.

(** X11: when /app/definitions exists but is a regular file, the top-level
    tools raise [FileExistsError] and the example script returns the error
    line, and nothing changes. *)
Theorem save_blocked_by_file (u : N → bool) (word payload x : pystr) (w : world) :
  faults w = [] → nodes w !! [lit "app"] = Some Dir →
  nodes w !! [lit "app"; lit "definitions"] = Some (File x) →
  V7.save_definition word payload w = (inl eexist, w)
  ∧ Simple.save_file word payload w = (inl eexist, w)
  ∧ Mcp.save_definition u word payload w
    = (inr (lit "❌ Error saving definition for '" ++ word ++ lit "': "
            ++ lit "[Errno 17] File exists: '/app/definitions'"), w).
Proof.
  intros Hq Hn Hx. apply (tools_stop_at_mkdir u word payload w eexist).
  by eapply mkdir_blocked.
Qed.

Lemma save_blocked_by_file_witness :
  V7.save_definition (lit "Zorgon") (lit "a planet") w_blocked = (inl eexist, w_blocked).
Proof.
  apply (save_blocked_by_file (λ _, false) (lit "Zorgon") (lit "a planet")
           (lit "not a directory") w_blocked); vm_compute; reflexivity.
Defined.

(** ** Further properties of the runs *)

(** X12: for every discovery result, the agent of both gateway scripts gets
    the discovered tools in their order followed by [save_definition], and
    the example script announces one tool more than were discovered. *)
Theorem agent_tools_local_last (env : environ) (ext : externals) (tools : list tool) :
  model_init ext = None → client_init ext = None → gateway_enter ext = None →
  list_tools_sync ext = inr tools →
  agent_tools <$> agent_inits (trace (V7.main env ext))
  = [tools ++ [save_definition_tool]]
  ∧ agent_tools <$> agent_inits (trace (Mcp.main env ext))
    = [tools ++ [save_definition_tool]]
  ∧ printed (trace (Mcp.main env ext)) !! 5%nat
    = Some (lit "🤖 Creating agent with " ++ str_nat (length tools + 1)
            ++ lit " total tools").
Proof.
  destruct ext as [mi ci ge lt ai ac gx]. simpl.
  intros -> -> -> ->.
  split_and!.
  - destruct ai, ac, gx; run_script; reflexivity.
  - destruct ai, ac, gx; run_script; reflexivity.
  - assert (length (tools ++ [save_definition_tool]) = (length tools + 1)%nat)
      as Hlen by apply length_app.
    destruct ai, ac, gx; run_script; rewrite Hlen; reflexivity.
Qed.

Lemma agent_tools_local_last_witness :
  agent_tools <$> agent_inits (trace (V7.main ∅ ext_two_tools))
  = [[mcp_tool (lit "search"); mcp_tool (lit "fetch")] ++ [save_definition_tool]].
Proof.
  apply (agent_tools_local_last ∅ ext_two_tools
           [mcp_tool (lit "search"); mcp_tool (lit "fetch")]); reflexivity.
Defined.

(** X13: every script submits its question at most once, and exactly once
    when all calls before the invocation succeed; a failed set-up means the
    agent is never invoked. The basic script always asks its fixed
    question. *)
Theorem single_invocation (env : environ) (ext : externals) :
  let set_up := ok (model_init ext) && ok (client_init ext)
                && ok (gateway_enter ext) && returned (list_tools_sync ext)
                && ok (agent_init ext) in
  let plain_set_up := ok (model_init ext) && ok (agent_init ext) in
  questions_asked (trace (V7.main env ext))
  = (if set_up then [V7.QUESTION env] else [])
  ∧ questions_asked (trace (Mcp.main env ext))
    = (if set_up then [Mcp.QUESTION env] else [])
  ∧ questions_asked (trace (Simple.main env ext))
    = (if plain_set_up then [Simple.QUESTION env] else [])
  ∧ questions_asked (trace (Basic.main env ext))
    = (if plain_set_up then [Basic.QUESTION] else []).
Proof.
  cbv zeta. split_and!.
  - gateway_runs ext ltac:(run_script; reflexivity).
  - gateway_runs ext ltac:(run_script; reflexivity).
  - plain_runs ext ltac:(run_script; reflexivity).
  - plain_runs ext ltac:(run_script; reflexivity).
Qed.

(** X14: [simple_agent.py] and the basic script never touch the gateway
    (no client, no connection, no discovery), and their agent gets the fixed
    local tools. *)
Theorem plain_scripts_skip_gateway (env : environ) (ext : externals) :
  List.filter touches_gateway (trace (Simple.main env ext)) = []
  ∧ List.filter touches_gateway (trace (Basic.main env ext)) = []
  ∧ agent_tools <$> agent_inits (trace (Simple.main env ext))
    = (if ok (model_init ext) then [[simple_search_tool; save_file_tool]] else [])
  ∧ agent_tools <$> agent_inits (trace (Basic.main env ext))
    = (if ok (model_init ext) then [[current_time_tool]] else []).
Proof.
  split_and!; plain_runs ext ltac:(run_script; reflexivity).
Qed.

(** X15: the basic script reads MODEL_RUNNER_URL and MODEL_RUNNER_MODEL
    only, and [simple_agent.py] these two and QUESTION: two environments
    that agree on them give the same run; OPENAI_API_KEY (and, for the basic
    script, QUESTION) is ignored. *)
Theorem plain_scripts_environment (env env' : environ) (ext : externals) :
  env !! "MODEL_RUNNER_URL" = env' !! "MODEL_RUNNER_URL" →
  env !! "MODEL_RUNNER_MODEL" = env' !! "MODEL_RUNNER_MODEL" →
  Basic.main env ext = Basic.main env' ext
  ∧ (env !! "QUESTION" = env' !! "QUESTION" →
     Simple.main env ext = Simple.main env' ext).
Proof.
  intros Hu Hm. split.
  - unfold Basic.main, Basic.MODEL_RUNNER_URL, Basic.MODEL_RUNNER_MODEL,
      getenv_default. by rewrite Hu, Hm.
  - intros Hq.
    unfold Simple.main, Simple.MODEL_RUNNER_URL, Simple.MODEL_RUNNER_MODEL,
      Simple.QUESTION, getenv_default. by rewrite Hu, Hm, Hq.
Qed.

Lemma plain_scripts_environment_witness :
  Basic.main {[ "OPENAI_API_KEY" := lit "sk-live-123";
                "QUESTION" := lit "What is 2 + 2?" ]} ext_no_tools
  = Basic.main ∅ ext_no_tools.
Proof.
  apply (plain_scripts_environment
           {[ "OPENAI_API_KEY" := lit "sk-live-123";
              "QUESTION" := lit "What is 2 + 2?" ]} ∅ ext_no_tools);
    reflexivity.
Defined.

Lemma Mcp_get_model_line (env : environ) (k : pystr) :
  usable (Some k) →
  (Mcp.get_model (<["OPENAI_API_KEY" := k]> env)).1
  = lit "🌐 Configuring OpenAI model: " ++ Mcp.OPENAI_MODEL_NAME env.
Proof.
  intros Hu. apply usable_dec in Hu.
  unfold Mcp.get_model, Mcp.OPENAI_API_KEY, getenv.
  rewrite lookup_insert_eq, Hu. simpl. unfold Mcp.OPENAI_MODEL_NAME.
  by rewrite getenv_default_insert_ne.
Qed.

Lemma Mcp_main_printed_frame (env1 env2 : environ) (ext : externals) :
  (Mcp.get_model env1).1 = (Mcp.get_model env2).1 →
  Mcp.MCP_SERVER_URL env1 = Mcp.MCP_SERVER_URL env2 →
  Mcp.QUESTION env1 = Mcp.QUESTION env2 →
  printed (trace (Mcp.main env1 ext)) = printed (trace (Mcp.main env2 ext)).
Proof.
  intros Hl Hu Hq.
  gateway_runs ext ltac:(run_script; unfold printed; cbn [omap list_omap];
                         rewrite ?Hl, ?Hu, ?Hq; reflexivity).
Qed.

Lemma V7_main_printed_frame (env1 env2 : environ) (ext : externals) :
  V7.QUESTION env1 = V7.QUESTION env2 →
  printed (trace (V7.main env1 ext)) = printed (trace (V7.main env2 ext)).
Proof.
  intros Hq.
  gateway_runs ext ltac:(run_script; unfold printed; cbn [omap list_omap];
                         rewrite ?Hq; reflexivity).
Qed.

(** X16: the lines the gateway scripts print do not depend on the value of
    a usable OPENAI_API_KEY: with the same outcomes of the external calls,
    two keys give the same output. *)
Theorem key_not_printed (env : environ) (ext : externals) (k1 k2 : pystr) :
  usable (Some k1) → usable (Some k2) →
  printed (trace (Mcp.main (<["OPENAI_API_KEY" := k1]> env) ext))
  = printed (trace (Mcp.main (<["OPENAI_API_KEY" := k2]> env) ext))
  ∧ printed (trace (V7.main (<["OPENAI_API_KEY" := k1]> env) ext))
    = printed (trace (V7.main (<["OPENAI_API_KEY" := k2]> env) ext)).
Proof.
  intros H1 H2. split.
  - apply Mcp_main_printed_frame.
    + by rewrite !Mcp_get_model_line.
    + unfold Mcp.MCP_SERVER_URL. by rewrite !getenv_default_insert_ne.
    + unfold Mcp.QUESTION. by rewrite !getenv_default_insert_ne.
  - apply V7_main_printed_frame.
    unfold V7.QUESTION. by rewrite !getenv_default_insert_ne.
Qed.

Lemma key_not_printed_witness :
  printed (trace (Mcp.main (<["OPENAI_API_KEY" := lit "sk-live-123"]> ∅) ext_no_tools))
  = printed (trace (Mcp.main (<["OPENAI_API_KEY" := lit "sk-other-456"]> ∅) ext_no_tools)).
Proof.
  refine (proj1 (key_not_printed ∅ ext_no_tools (lit "sk-live-123")
                   (lit "sk-other-456") _ _)).
  - eexists. split; [reflexivity|]. split; vm_compute; discriminate.
  - eexists. split; [reflexivity|]. split; vm_compute; discriminate.
Defined.

(** ** The name of the file the top-level tool writes *)

Lemma split_slash_nonempty (s : pystr) : split_slash s ≠ [].
Proof.
  induction s as [|c s IH]; simpl; [done|].
  destruct (c =? 47); [done|]. by destruct (split_slash s).
Qed.

Lemma last_cons_nonempty {A} (x d : A) (l : list A) :
  l ≠ [] → List.last (x :: l) d = List.last l d.
Proof. by destruct l. Qed.

Lemma removelast_cons_nonempty {A} (x : A) (l : list A) :
  l ≠ [] → removelast (x :: l) = x :: removelast l.
Proof. by destruct l. Qed.

Lemma split_slash_app_plain (s t : pystr) :
  47 ∉ t →
  split_slash (s ++ t)
  = removelast (split_slash s) ++ [List.last (split_slash s) [] ++ t].
Proof.
  intros Ht. induction s as [|c s IH].
  - simpl. by apply split_slash_plain.
  - pose proof (split_slash_nonempty s) as Hne.
    change ((c :: s) ++ t) with (c :: (s ++ t)).
    cbn [split_slash]. destruct (c =? 47).
    + rewrite IH, removelast_cons_nonempty, last_cons_nonempty by done. done.
    + rewrite IH. destruct (split_slash s) as [|x [|y xs]]; [done|done|].
      rewrite removelast_cons_nonempty by done.
      rewrite (removelast_cons_nonempty (c :: x)) by done.
      rewrite last_cons_nonempty by done.
      by rewrite (last_cons_nonempty (c :: x)) by done.
Qed.

Lemma last_segment_app_plain (s t : pystr) :
  47 ∉ t → last_segment (s ++ t) = last_segment s ++ t.
Proof.
  intros Ht. unfold last_segment. rewrite split_slash_app_plain by done.
  apply last_last.
Qed.

Lemma last_segment_slash (s : pystr) : last_segment (47 :: s) = last_segment s.
Proof.
  unfold last_segment. cbn [split_slash N.eqb Pos.eqb].
  apply last_cons_nonempty, split_slash_nonempty.
Qed.

Lemma last_segment_drop (k : nat) (s : pystr) :
  Forall (λ c, c = 47) (take k s) → last_segment (drop k s) = last_segment s.
Proof.
  revert s. induction k as [|k IH]; intros s H; [done|].
  destruct s as [|c s]; [done|]. simpl in *.
  inversion H as [|? ? -> H']; subst. rewrite last_segment_slash. by apply IH.
Qed.

Lemma splitroot_drop (s : pystr) :
  ∃ k, (splitroot s).2 = drop k s ∧ Forall (λ c, c = 47) (take k s).
Proof.
  unfold splitroot. case_bool_decide as H1; simpl.
  - case_bool_decide as H2; simpl.
    + case_bool_decide as H3; simpl.
      * exists 1%nat. split; [done|]. rewrite H1. by repeat constructor.
      * exists 2%nat. split; [done|].
        destruct s as [|a [|b s]]; simpl in *; simplify_eq.
        by repeat constructor.
    + exists 1%nat. split; [done|]. rewrite H1. by repeat constructor.
  - by exists 0%nat.
Qed.

Lemma filter_last_kept {A} (p : A → bool) (l : list A) (d : A) :
  l ≠ [] → p (List.last l d) = true →
  List.filter p l ≠ [] ∧ List.last (List.filter p l) d = List.last l d.
Proof.
  intros Hne Hp. destruct (exists_last Hne) as (init & x & ->).
  rewrite last_last in *. rewrite List.filter_app. simpl. rewrite Hp.
  split; [by destruct (List.filter p init)|apply last_last].
Qed.

Lemma Path_name (s : pystr) :
  real_segment (last_segment s) = true →
  parts (Path s) ≠ [] ∧ path_name (Path s) = last_segment s.
Proof.
  intros Hr. unfold Path, path_name.
  destruct (splitroot_drop s) as (k & Hk & Hs).
  destruct (splitroot s) as [r rest]. simpl in *. subst rest.
  apply (last_segment_drop k s) in Hs. rewrite <- Hs in *.
  apply filter_last_kept; [apply split_slash_nonempty|done].
Qed.

Lemma joinpath_name (a : PurePath) (s : pystr) :
  real_segment (last_segment s) = true →
  path_name (joinpath a s) = last_segment s.
Proof.
  intros Hr. destruct (Path_name s Hr) as [Hne Hn].
  unfold joinpath. destruct (root (Path s) =? 0); [|done].
  unfold path_name in *. simpl.
  destruct (exists_last Hne) as (init & x & Hx). rewrite Hx in *.
  by rewrite app_assoc, !last_last in *.
Qed.

Lemma txt_plain : 47 ∉ lit ".txt".
Proof. apply (bool_decide_unpack _). by vm_compute. Qed.

Lemma txt_real (seg : pystr) : real_segment (seg ++ lit ".txt") = true.
Proof.
  unfold real_segment. rewrite !bool_decide_eq_false_2; [done| |].
  - destruct seg as [|? [|? ?]]; vm_compute; discriminate.
  - destruct seg; vm_compute; discriminate.
Qed.

(** X17: the file the top-level [save_definition] names is always the part
    of the word after its last slash, followed by ".txt"; for a word without
    a slash that is the word plus ".txt". *)
Theorem V7_file_name_ends_txt (word : pystr) :
  path_name (V7.file_path word) = last_segment word ++ lit ".txt"
  ∧ (47 ∉ word → path_name (V7.file_path word) = word ++ lit ".txt").
Proof.
  assert (path_name (V7.file_path word) = last_segment word ++ lit ".txt") as H.
  { unfold V7.file_path. rewrite joinpath_name.
    - apply last_segment_app_plain, txt_plain.
    - rewrite last_segment_app_plain by apply txt_plain. apply txt_real. }
  split; [done|]. intros Hw. rewrite H. f_equal.
  unfold last_segment. by rewrite split_slash_plain.
Qed.

Lemma V7_file_name_ends_txt_witness :
  path_name (V7.file_path (lit "C++")) = lit "C++" ++ lit ".txt".
Proof.
  apply (proj2 (V7_file_name_ends_txt (lit "C++"))).
  apply (bool_decide_unpack _). by vm_compute.
Defined.
